(** * Blue Lock Terminal: record store and derived statistics

    A shallow embedding of [page.tsx] (the single React component file of the
    application) and the properties of its store-and-derive core.

    Modelling conventions.
    - A JS string is the list of its UTF-16 code units ([list N]); the
      literal [js "abc"] is the string of the three code units of "abc".
    - A JS number is a [number]: an exact rational, an infinity or NaN.
      Arithmetic follows IEEE 754 / ECMAScript on the special values
      (x/0, Infinity - Infinity, NaN propagation, comparisons with NaN);
      on finite values it is exact: binary64 rounding, overflow and the sign
      of zero are not modelled.  The one statistic that is rounded to an
      integer after a division, [winRate], is evaluated in binary64 itself
      (module [F64], on Rocq's primitive floats), since there the
      representation error decides the result.  A statement whose truth
      depends on magnitudes carries the bounds within which the exact
      result and the binary64 result agree on what it says.
    - Host functions that are not code of the repository (JSON.parse,
      JSON.stringify, toUpperCase, the clock) are parameters; parseFloat,
      parseInt and trim are written out after ECMA-262.
    - An exception is a value of [completion]; try/catch is [try_catch]. *)

From Stdlib Require Import ZArith QArith Qround Qabs Lqa List String Ascii Lia.
From Stdlib Require Import PrimFloat FloatOps Uint63 DecimalString.
From stdpp Require Import gmap.
Import ListNotations.

Local Open Scope Z_scope.
Local Open Scope list_scope.

(** ** JS strings *)

Abbreviation jsstring := (list N) (only parsing).

Definition js (s : string) : jsstring :=
  List.map N_of_ascii (list_ascii_of_string s).

(** ** JS numbers *)

Inductive number : Type :=
  | NaN
  | NegInf
  | Fin (q : Q)
  | PosInf.

Definition num (z : Z) : number := Fin (inject_Z z).

Definition Qltb (a b : Q) : bool := negb (Qle_bool b a).

Module Num.

Definition is_nan (a : number) : bool :=
  match a with NaN => true | _ => false end.

(** Sign of a number as a comparison with zero; [None] for NaN. *)
Definition sign (a : number) : option comparison :=
  match a with
  | NaN => None
  | NegInf => Some Lt
  | PosInf => Some Gt
  | Fin q => Some (q ?= 0)%Q
  end.

Definition neg (a : number) : number :=
  match a with
  | NaN => NaN
  | NegInf => PosInf
  | PosInf => NegInf
  | Fin q => Fin (- q)
  end.

Definition add (a b : number) : number :=
  match a, b with
  | NaN, _ | _, NaN => NaN
  | PosInf, NegInf | NegInf, PosInf => NaN
  | PosInf, _ | _, PosInf => PosInf
  | NegInf, _ | _, NegInf => NegInf
  | Fin x, Fin y => Fin (x + y)
  end.

Definition sub (a b : number) : number := add a (neg b).

(** Infinity of the sign [c]; zero counts as positive. *)
Definition inf_of (c : comparison) : number :=
  match c with Lt => NegInf | _ => PosInf end.

Definition flip (c : comparison) : comparison :=
  match c with Lt => Gt | Gt => Lt | Eq => Eq end.

Definition sign_mul (c d : comparison) : comparison :=
  match c with Eq => Eq | Gt => d | Lt => flip d end.

Definition mul (a b : number) : number :=
  match a, b with
  | Fin x, Fin y => Fin (x * y)
  | _, _ =>
      match sign a, sign b with
      | Some c, Some d =>
          match sign_mul c d with
          | Eq => NaN               (* Infinity * 0 *)
          | s => inf_of s
          end
      | _, _ => NaN
      end
  end.

Definition div (a b : number) : number :=
  match a, b with
  | NaN, _ | _, NaN => NaN
  | Fin x, Fin y =>
      if Qeq_bool y 0
      then match (x ?= 0)%Q with
           | Eq => NaN              (* 0 / 0 *)
           | Lt => NegInf
           | Gt => PosInf
           end
      else Fin (x / y)
  | Fin _, _ => Fin 0               (* finite / Infinity *)
  | _, Fin y =>                     (* Infinity / finite *)
      match sign a with
      | Some c => inf_of (match (y ?= 0)%Q with Lt => flip c | _ => c end)
      | None => NaN
      end
  | _, _ => NaN                     (* Infinity / Infinity *)
  end.

Definition abs (a : number) : number :=
  match a with
  | NaN => NaN
  | NegInf | PosInf => PosInf
  | Fin q => Fin (Qabs q)
  end.

(** [a < b]; false when either is NaN. *)
Definition ltb (a b : number) : bool :=
  match a, b with
  | NaN, _ | _, NaN => false
  | _, NegInf => false
  | NegInf, _ => true
  | PosInf, _ => false
  | _, PosInf => true
  | Fin x, Fin y => Qltb x y
  end.

(** [a <= b]; false when either is NaN. *)
Definition leb (a b : number) : bool :=
  match a, b with
  | NaN, _ | _, NaN => false
  | NegInf, _ => true
  | _, PosInf => true
  | _, NegInf => false
  | PosInf, _ => false
  | Fin x, Fin y => Qle_bool x y
  end.

Definition geb (a b : number) : bool := leb b a.

(** Math.max and Math.min of two arguments. *)
Definition max (a b : number) : number :=
  if is_nan a || is_nan b then NaN else if ltb a b then b else a.

Definition min (a b : number) : number :=
  if is_nan a || is_nan b then NaN else if ltb b a then b else a.

(** ToBoolean on a number: 0 and NaN are falsy. *)
Definition truthy (a : number) : bool :=
  match a with
  | NaN => false
  | Fin q => negb (Qeq_bool q 0)
  | _ => true
  end.

(** [a || b] on numbers. *)
Definition or (a b : number) : number := if truthy a then a else b.

(** Equality of numbers as values (rationals up to [Qeq]). *)
Definition eq (a b : number) : Prop :=
  match a, b with
  | NaN, NaN | NegInf, NegInf | PosInf, PosInf => True
  | Fin x, Fin y => (x == y)%Q
  | _, _ => False
  end.

End Num.

Infix "=n=" := Num.eq (at level 70, no associativity).

(** ** Types (page.tsx, lines 9-42) *)

Record EgoEntry := mkEgo {
  ego_id : jsstring;
  ego_date : jsstring;
  score : number;
  label : jsstring;
  ego_notes : jsstring }.

Inductive TradeResult := WIN | LOSS | BREAKEVEN.

Record TradeEntry := mkTrade {
  trade_id : jsstring;
  trade_date : jsstring;
  ticker : jsstring;
  entryPrice : number;
  exitPrice : number;
  shares : number;
  result : TradeResult;
  pnl : number;
  trade_notes : jsstring }.

Inductive DrillCategory := TRADING | FITNESS | SKILL | MINDSET.

Record DrillEntry := mkDrill {
  drill_id : jsstring;
  drill_date : jsstring;
  weapon : jsstring;
  intensity : number;
  category : DrillCategory }.

Record Settings := mkSettings {
  startingCapital : number;
  targetCapital : number;
  weeklyInjection : number;
  currentCapital : number }.

(** ** Ego label logic (lines 48-56) *)

Definition getEgoLabel (score : number) : jsstring :=
  if Num.leb score (num 20) then js "DONKEY"
  else if Num.leb score (num 40) then js "HALF-BAKED"
  else if Num.leb score (num 55) then js "PUPPET"
  else if Num.leb score (num 70) then js "HUNGRY"
  else if Num.leb score (num 85) then js "EGOIST"
  else if Num.leb score (num 95) then js "MONSTER"
  else js "DEVOUR".

(** The seven labels in the order of the label reference of the ego page
    (lines 453-459), lowest tier first. *)
Definition egoTiers : list jsstring :=
  [js "DONKEY"; js "HALF-BAKED"; js "PUPPET"; js "HUNGRY";
   js "EGOIST"; js "MONSTER"; js "DEVOUR"].

Definition jsstring_eqb (a b : jsstring) : bool :=
  bool_decide (a = b).

(** Position (from 1) of a label in an ordered list of labels; 0 if absent. *)
Fixpoint position (l : jsstring) (ls : list jsstring) : nat :=
  match ls with
  | [] => 0
  | x :: rest =>
      if jsstring_eqb l x then 1
      else match position l rest with
           | O => O
           | S k => S (S k)
           end
  end.

Definition tierOf (score : number) : nat :=
  position (getEgoLabel score) egoTiers.

(** The tier the thresholds of the specification assign to an integer score. *)
Definition thresholdTier (s : Z) : nat :=
  if s <=? 20 then 1
  else if s <=? 40 then 2
  else if s <=? 55 then 3
  else if s <=? 70 then 4
  else if s <=? 85 then 5
  else if s <=? 95 then 6
  else 7.


(** ** Exceptions *)

Inductive JSError := SyntaxError | SecurityError | QuotaExceededError.

Inductive completion (A : Type) : Type :=
  | Normal (a : A)
  | Throw (e : JSError).
Arguments Normal {A} a.
Arguments Throw {A} e.

Definition bind {A B} (c : completion A) (k : A -> completion B) : completion B :=
  match c with
  | Normal a => k a
  | Throw e => Throw e
  end.

Definition try_catch {A} (body : completion A) (handler : JSError -> completion A)
  : completion A :=
  match body with
  | Normal a => Normal a
  | Throw e => handler e
  end.

(** ** The host: window and localStorage

    [NoWindow]: no [window] object (rendering outside a browser).
    [NoAccess]: a browser whose [localStorage] refuses every access.
    [Window items accepts]: a browser with the stored items; [accepts k v]
    tells whether writing [v] under [k] succeeds (it fails when the quota
    is exceeded). *)

Inductive Host :=
  | NoWindow
  | NoAccess
  | Window (items : gmap (list N) (list N)) (accepts : list N -> list N -> bool).

Definition window_defined (h : Host) : bool :=
  match h with NoWindow => false | _ => true end.

Definition getItem (h : Host) (key : jsstring) : completion (option jsstring) :=
  match h with
  | Window items _ => Normal (items !! key)
  | _ => Throw SecurityError
  end.

Definition setItem (h : Host) (key value : jsstring) : completion Host :=
  match h with
  | Window items accepts =>
      if accepts key value then Normal (Window (<[key := value]> items) accepts)
      else Throw QuotaExceededError
  | _ => Throw SecurityError
  end.

(** The items a host holds (none when there is no storage). *)
Definition stored (h : Host) : gmap (list N) (list N) :=
  match h with
  | Window items _ => items
  | _ => ∅
  end.

(** JSON.stringify and JSON.parse at a type [T]: host functions.  The empty
    text is not a JSON text: JSON.parse throws a SyntaxError on it. *)
Class JSON (T : Type) := {
  stringify : T -> jsstring;
  parse : jsstring -> completion T;
  parse_empty : parse [] = Throw SyntaxError }.

(** ** Storage utilities (lines 72-96) *)

Module STORAGE_KEYS.
Definition egoEntries : jsstring := js "bluelock_ego".
Definition tradeEntries : jsstring := js "bluelock_trades".
Definition drillEntries : jsstring := js "bluelock_drills".
Definition settings : jsstring := js "bluelock_settings".
End STORAGE_KEYS.

(** A string is truthy when it is not empty. *)
Definition string_truthy (s : jsstring) : bool :=
  match s with [] => false | _ => true end.

Definition loadFromStorage {T} `{JSON T} (h : Host) (key : jsstring)
  (defaultValue : T) : completion T :=
  if negb (window_defined h) then Normal defaultValue
  else
    try_catch
      (bind (getItem h key) (fun stored =>
         match stored with
         | Some s => if string_truthy s then parse s else Normal defaultValue
         | None => Normal defaultValue
         end))
      (fun _ => Normal defaultValue).

(** The result of [saveToStorage]: the host afterwards and what was sent to
    [console.error]. *)
Definition saveToStorage {T} `{JSON T} (h : Host) (key : jsstring) (value : T)
  : Host * list JSError :=
  if negb (window_defined h) then (h, [])
  else
    match setItem h key (stringify value) with
    | Normal h' => (h', [])
    | Throw e => (h, [e])
    end.

(** ** Host string and number functions (after ECMA-262) *)

Module ES.

(** WhiteSpace and LineTerminator code points. *)
Definition isWhiteSpace (c : N) : bool :=
  List.existsb (N.eqb c)
    [9; 10; 11; 12; 13; 32; 160; 5760; 8232; 8233; 8239; 8287; 12288; 65279]%N
  || ((8192 <=? c) && (c <=? 8202))%N.

Fixpoint trimStart (s : jsstring) : jsstring :=
  match s with
  | c :: rest => if isWhiteSpace c then trimStart rest else s
  | [] => []
  end.

Definition trimEnd (s : jsstring) : jsstring := rev (trimStart (rev s)).

(** String.prototype.trim *)
Definition trim (s : jsstring) : jsstring := trimEnd (trimStart s).

(** Value of a digit in the given radix (10 or 16), if it is one. *)
Definition digit (radix : N) (c : N) : option N :=
  if ((48 <=? c) && (c <=? 57))%N then Some (c - 48)%N
  else if (radix =? 16)%N then
    if ((97 <=? c) && (c <=? 102))%N then Some (c - 87)%N
    else if ((65 <=? c) && (c <=? 70))%N then Some (c - 55)%N
    else None
  else None.

(** Longest prefix of digits, most significant first, and the rest. *)
Fixpoint digits (radix : N) (s : jsstring) : list N * jsstring :=
  match s with
  | c :: rest =>
      match digit radix c with
      | Some d => let (ds, r) := digits radix rest in (d :: ds, r)
      | None => ([], s)
      end
  | [] => ([], [])
  end.

Definition value (radix : N) (ds : list N) : Z :=
  fold_left (fun acc d => acc * Z.of_N radix + Z.of_N d) ds 0.

Definition signOf (s : jsstring) : Z * jsstring :=
  match s with
  | 45%N :: rest => (-1, rest)
  | 43%N :: rest => (1, rest)
  | _ => (1, s)
  end.

(** parseInt(string) with no radix argument. *)
Definition parseInt (input : jsstring) : number :=
  let (sign, s) := signOf (trimStart input) in
  let (radix, s) :=
    match s with
    | 48%N :: 120%N :: rest | 48%N :: 88%N :: rest => (16%N, rest)
    | _ => (10%N, s)
    end in
  match fst (digits radix s) with
  | [] => NaN
  | ds => num (sign * value radix ds)
  end.

Fixpoint startsWith (p s : jsstring) : bool :=
  match p, s with
  | [], _ => true
  | a :: p', b :: s' => (a =? b)%N && startsWith p' s'
  | _ :: _, [] => false
  end.

(** The exponent part [e[+-]digits] at the head of [s], or 0. *)
Definition exponent (s : jsstring) : Z :=
  match s with
  | c :: rest =>
      if ((c =? 101) || (c =? 69))%N then
        let (sign, r) := signOf rest in
        match fst (digits 10 r) with
        | [] => 0
        | ds => sign * value 10 ds
        end
      else 0
  | [] => 0
  end.

(** parseFloat(string): the longest prefix that is a StrDecimalLiteral. *)
Definition parseFloat (input : jsstring) : number :=
  let (sign, s) := signOf (trimStart input) in
  if startsWith (js "Infinity") s then (if sign <? 0 then NegInf else PosInf)
  else
    let (ip, r1) := digits 10 s in
    let (fp, r2) :=
      match r1 with
      | 46%N :: r => digits 10 r
      | _ => ([], r1)
      end in
    match ip, fp with
    | [], [] => NaN
    | _, _ =>
        let mantissa :=
          (inject_Z (value 10 ip)
           + inject_Z (value 10 fp) / inject_Z (10 ^ Z.of_nat (length fp)))%Q in
        Fin (Qred (inject_Z sign * mantissa * Qpower 10 (exponent r2)))
    end.

(** Number.prototype.toString on an integer. *)
Definition toString (z : Z) : jsstring :=
  js (NilZero.string_of_int (Z.to_int z)).

(** Math.round: the nearest integer, halves rounded up. *)
Definition round (a : number) : number :=
  match a with
  | Fin q => num (Qfloor (q + (1 # 2)))
  | _ => a
  end.

End ES.

(** What a handler reads from the host when it runs: the clock as
    [Date.now()] and as [new Date().toISOString()], and
    String.prototype.toUpperCase. *)
Record Env := mkEnv {
  Date_now : Z;
  Date_toISOString : jsstring;
  toUpperCase : jsstring -> jsstring }.


(** ** Binary64 arithmetic

    JS numbers are IEEE 754 binary64 values, which Rocq's primitive floats
    implement.  Array lengths are below 2^32, so [of_nat] is exact on them. *)

Module F64.

Definition of_nat (n : nat) : float :=
  PrimFloat.of_uint63 (Uint63.of_Z (Z.of_nat n)).

(** The exact value of a binary64 number. *)
Definition to_number (x : float) : number :=
  match Prim2SF x with
  | SpecFloat.S754_zero _ => Fin 0
  | SpecFloat.S754_infinity s => if s then NegInf else PosInf
  | SpecFloat.S754_nan => NaN
  | SpecFloat.S754_finite s m e =>
      (* the value is n * 2^e *)
      let n := if s then Z.neg m else Z.pos m in
      Fin (if 0 <=? e then inject_Z (n * 2 ^ e)
           else n # Z.to_pos (2 ^ (- e)))
  end.

End F64.

(** ** The main component (lines 102-183, 226-264) *)

Inductive Page :=
  | dashboard | ego | trades | drills | stats | settings_page.

Record Model := mkModel {
  currentPage : Page;
  egoEntries : list EgoEntry;
  tradeEntries : list TradeEntry;
  drillEntries : list DrillEntry;
  settings : Settings;
  loaded : bool }.

Definition defaultSettings : Settings :=
  {| startingCapital := num 4705;
     targetCapital := num 10000;
     weeklyInjection := num 60;
     currentCapital := num 4705 |}.

(** The state of the first render (the [useState] initial values). *)
Definition initialModel : Model :=
  {| currentPage := dashboard;
     egoEntries := [];
     tradeEntries := [];
     drillEntries := [];
     settings := defaultSettings;
     loaded := false |}.

Definition setCurrentPage (p : Page) (m : Model) : Model :=
  mkModel p (egoEntries m) (tradeEntries m) (drillEntries m) (settings m) (loaded m).
Definition setEgoEntries (v : list EgoEntry) (m : Model) : Model :=
  mkModel (currentPage m) v (tradeEntries m) (drillEntries m) (settings m) (loaded m).
Definition setTradeEntries (v : list TradeEntry) (m : Model) : Model :=
  mkModel (currentPage m) (egoEntries m) v (drillEntries m) (settings m) (loaded m).
Definition setDrillEntries (v : list DrillEntry) (m : Model) : Model :=
  mkModel (currentPage m) (egoEntries m) (tradeEntries m) v (settings m) (loaded m).
Definition setSettings (v : Settings) (m : Model) : Model :=
  mkModel (currentPage m) (egoEntries m) (tradeEntries m) (drillEntries m) v (loaded m).
Definition setLoaded (v : bool) (m : Model) : Model :=
  mkModel (currentPage m) (egoEntries m) (tradeEntries m) (drillEntries m) (settings m) v.

(** *** Derived statistics (lines 161-183) *)

Definition isWin (t : TradeEntry) : bool :=
  match result t with WIN => true | _ => false end.

Definition isLoss (t : TradeEntry) : bool :=
  match result t with LOSS => true | _ => false end.

(** [Math.round((wins / length) * 100)], the quotient and the product in
    binary64. *)
Definition winRate (tradeEntries : list TradeEntry) : number :=
  if (0 <? length tradeEntries)%nat
  then ES.round
         (F64.to_number
            (PrimFloat.mul
               (PrimFloat.div (F64.of_nat (length (List.filter isWin tradeEntries)))
                              (F64.of_nat (length tradeEntries)))
               (F64.of_nat 100)))
  else num 0.

Definition totalPnl (tradeEntries : list TradeEntry) : number :=
  fold_left (fun sum t => Num.add sum (pnl t)) tradeEntries (num 0).

(** The loop of [streak]: [n] is [i + 1] for the index [i] about to be read. *)
Fixpoint streak_loop (drillEntries : list DrillEntry) (n : nat) (count : nat) : nat :=
  match n with
  | O => count
  | S i =>
      match drillEntries !! i with
      | Some d =>
          if Num.geb (intensity d) (num 5)
          then streak_loop drillEntries i (S count)
          else count
      | None => count
      end
  end.

Definition streak (drillEntries : list DrillEntry) : nat :=
  streak_loop drillEntries (length drillEntries) 0.

Definition progressPercent (settings : Settings) : number :=
  Num.min (num 100)
    (Num.max (num 0)
       (Num.mul
          (Num.div (Num.sub (currentCapital settings) (startingCapital settings))
                   (Num.sub (targetCapital settings) (startingCapital settings)))
          (num 100))).

(** *** Callbacks handed to the pages (lines 229-263) *)

Definition onAddEgo (entry : EgoEntry) (m : Model) : Model :=
  setEgoEntries (egoEntries m ++ [entry]) m.

Definition onAddTrade (entry : TradeEntry) (m : Model) : Model :=
  setTradeEntries (tradeEntries m ++ [entry]) m.

Definition onAddDrill (entry : DrillEntry) (m : Model) : Model :=
  setDrillEntries (drillEntries m ++ [entry]) m.

Definition onUpdate (s : Settings) (m : Model) : Model := setSettings s m.

Definition onReset (m : Model) : Model :=
  setDrillEntries [] (setTradeEntries [] (setEgoEntries [] m)).

(** ** The Stats page (lines 811-822) *)

Module Stats.

Definition wins (tradeEntries : list TradeEntry) : nat :=
  length (List.filter isWin tradeEntries).

Definition losses (tradeEntries : list TradeEntry) : nat :=
  length (List.filter isLoss tradeEntries).

Definition avgWin (tradeEntries : list TradeEntry) : number :=
  if (0 <? wins tradeEntries)%nat
  then Num.div
         (fold_left (fun s t => Num.add s (pnl t))
                    (List.filter isWin tradeEntries) (num 0))
         (num (Z.of_nat (wins tradeEntries)))
  else num 0.

Definition avgLoss (tradeEntries : list TradeEntry) : number :=
  if (0 <? losses tradeEntries)%nat
  then Num.abs
         (Num.div
            (fold_left (fun s t => Num.add s (pnl t))
                       (List.filter isLoss tradeEntries) (num 0))
            (num (Z.of_nat (losses tradeEntries))))
  else num 0.

End Stats.

(** ** Effects of the main component (lines 117-159)

    [App] is the component together with its surroundings: the host, the
    animation-frame callback still to run, what was written to
    [console.error], and the chronological log of storage actions. *)

Inductive Action :=
  | Load (key : jsstring)                  (* a call of loadFromStorage *)
  | Ready                                  (* setLoaded(true) *)
  | Save (key : jsstring) (value : jsstring). (* a call of saveToStorage *)

Record Snapshot := mkSnapshot {
  snap_ego : list EgoEntry;
  snap_trades : list TradeEntry;
  snap_drills : list DrillEntry;
  snap_settings : Settings }.

Record App := mkApp {
  model : Model;
  host : Host;
  mounted : bool;
  frame : option Snapshot;
  console : list JSError;
  trace : list Action }.

Definition withModel (m : Model) (a : App) : App :=
  mkApp m (host a) (mounted a) (frame a) (console a) (trace a).

Inductive Input :=
  | Mount                         (* first render and its effects *)
  | AnimationFrame                (* the requestAnimationFrame callback runs *)
  | Navigate (p : Page)
  | AddEgo (entry : EgoEntry)
  | AddTrade (entry : TradeEntry)
  | AddDrill (entry : DrillEntry)
  | UpdateSettings (s : Settings)
  | Reset.

Section Effects.

Context `{JSON (list EgoEntry)} `{JSON (list TradeEntry)}
        `{JSON (list DrillEntry)} `{JSON Settings}.

(** The body of the mount effect up to [requestAnimationFrame]. *)
Definition loadAll (h : Host) : completion Snapshot :=
  bind (loadFromStorage h STORAGE_KEYS.egoEntries []) (fun ego =>
  bind (loadFromStorage h STORAGE_KEYS.tradeEntries []) (fun trades =>
  bind (loadFromStorage h STORAGE_KEYS.drillEntries []) (fun drills =>
  bind (loadFromStorage h STORAGE_KEYS.settings defaultSettings) (fun storedSettings =>
  Normal (mkSnapshot ego trades drills storedSettings))))).

(** A guarded save: [if (loaded) saveToStorage(key, value)]. *)
Definition save {T} `{JSON T} (key : jsstring) (value : T) (a : App) : App :=
  if loaded (model a)
  then let (h, errors) := saveToStorage (host a) key value in
       mkApp (model a) h (mounted a) (frame a) (console a ++ errors)
             (trace a ++ [Save key (stringify value)])
  else a.

Definition saveEgo (a : App) : App :=
  save STORAGE_KEYS.egoEntries (egoEntries (model a)) a.
Definition saveTrades (a : App) : App :=
  save STORAGE_KEYS.tradeEntries (tradeEntries (model a)) a.
Definition saveDrills (a : App) : App :=
  save STORAGE_KEYS.drillEntries (drillEntries (model a)) a.
Definition saveSettings (a : App) : App :=
  save STORAGE_KEYS.settings (settings (model a)) a.

(** The four save effects, in the order they are declared. *)
Definition saveEffects (a : App) : App :=
  saveSettings (saveDrills (saveTrades (saveEgo a))).

Definition mountEffect (a : App) : App :=
  match loadAll (host a) with
  | Normal snapshot =>
      mkApp (model a) (host a) true (Some snapshot) (console a)
            (trace a ++ [Load STORAGE_KEYS.egoEntries;
                         Load STORAGE_KEYS.tradeEntries;
                         Load STORAGE_KEYS.drillEntries;
                         Load STORAGE_KEYS.settings])
  | Throw _ => mkApp (model a) (host a) true None (console a) (trace a)
  end.

(** The animation-frame callback: the five state updates. *)
Definition applySnapshot (s : Snapshot) (a : App) : App :=
  mkApp (setLoaded true
           (setSettings (snap_settings s)
              (setDrillEntries (snap_drills s)
                 (setTradeEntries (snap_trades s)
                    (setEgoEntries (snap_ego s) (model a))))))
        (host a) (mounted a) None (console a) (trace a ++ [Ready]).

(** One input and the effects of the render that follows it: an effect
    runs when one of its dependencies changed.  The pages, and so their
    callbacks, exist only once [loaded] holds (line 211). *)
Definition step (i : Input) (a : App) : App :=
  match i with
  | Mount =>
      if mounted a then a else saveEffects (mountEffect a)
  | AnimationFrame =>
      match frame a with
      | Some s => saveEffects (applySnapshot s a)
      | None => a
      end
  | Navigate p =>
      if mounted a then withModel (setCurrentPage p (model a)) a else a
  | AddEgo entry =>
      if loaded (model a) then saveEgo (withModel (onAddEgo entry (model a)) a) else a
  | AddTrade entry =>
      if loaded (model a) then saveTrades (withModel (onAddTrade entry (model a)) a) else a
  | AddDrill entry =>
      if loaded (model a) then saveDrills (withModel (onAddDrill entry (model a)) a) else a
  | UpdateSettings s =>
      if loaded (model a) then saveSettings (withModel (onUpdate s (model a)) a) else a
  | Reset =>
      if loaded (model a)
      then saveDrills (saveTrades (saveEgo (withModel (onReset (model a)) a)))
      else a
  end.

Definition run (inputs : list Input) (a : App) : App :=
  fold_left (fun a i => step i a) inputs a.

End Effects.

(** The application before its first render, on a given host. *)
Definition start (h : Host) : App :=
  mkApp initialModel h false None [] [].

(** ** The trade page (lines 519-549) *)

Module TradeLog.

Record Form := mkForm {
  ticker : jsstring;
  entryPrice : jsstring;
  exitPrice : jsstring;
  shares : jsstring;
  result : TradeResult;
  notes : jsstring }.

Definition emptyForm : Form :=
  mkForm [] [] [] (js "1") WIN [].

(** The entry [handleSubmit] builds. *)
Definition newEntry (env : Env) (f : Form) : TradeEntry :=
  let entryP := Num.or (ES.parseFloat (entryPrice f)) (num 0) in
  let exitP := Num.or (ES.parseFloat (exitPrice f)) (num 0) in
  let sh := Num.or (ES.parseInt (shares f)) (num 1) in
  let pnl := Num.mul (Num.sub exitP entryP) sh in
  mkTrade
    (ES.toString (Date_now env))       (* id *)
    (Date_toISOString env)             (* date *)
    (toUpperCase env (ticker f))       (* ticker *)
    entryP                             (* entryPrice *)
    exitP                              (* exitPrice *)
    sh                                 (* shares *)
    (result f)                         (* result *)
    pnl                                (* pnl *)
    (notes f).                         (* notes *)

Definition handleSubmit (env : Env) (onAdd : TradeEntry -> Model -> Model)
  (f : Form) (m : Model) : Form * Model :=
  (emptyForm, onAdd (newEntry env f) m).

End TradeLog.

(** ** The drills page (lines 689-707) *)

Module WeaponDrills.

Record Form := mkForm {
  weapon : jsstring;
  intensity : number;
  category : DrillCategory }.

Definition handleSubmit (env : Env) (onAdd : DrillEntry -> Model -> Model)
  (f : Form) (m : Model) : Form * Model :=
  if negb (string_truthy (ES.trim (weapon f))) then (f, m)
  else
    let entry :=
      mkDrill
        (ES.toString (Date_now env))   (* id *)
        (Date_toISOString env)         (* date *)
        (weapon f)                     (* weapon *)
        (intensity f)                  (* intensity *)
        (category f) in                (* category *)
    (mkForm [] (num 5) (category f), onAdd entry m).

End WeaponDrills.

(** ** Reference definitions and sample data used in the statements *)

(** Does a drill count towards the streak? *)
Definition qualifies (d : DrillEntry) : bool :=
  Num.geb (intensity d) (num 5).

Fixpoint takeWhile {A} (p : A -> bool) (l : list A) : list A :=
  match l with
  | x :: rest => if p x then x :: takeWhile p rest else []
  | [] => []
  end.

(** Consecutive qualifying drills counted backward from the most recent. *)
Definition trailingRun (drillEntries : list DrillEntry) : nat :=
  length (takeWhile qualifies (rev drillEntries)).

Definition drillOf (i : Z) : DrillEntry :=
  mkDrill (js "1") (js "2026-01-01T00:00:00.000Z") (js "shooting") (num i) SKILL.

Definition tradeOf (r : TradeResult) (p : Z) : TradeEntry :=
  mkTrade (js "1") (js "2026-01-01T00:00:00.000Z") (js "ABC")
          (num 0) (num 0) (num 1) r (num p) [].


(** Sum and mean of a list of numbers, and the two readings of "average
    loss": the mean of the absolute values, and the absolute value of the
    mean, of [pnl] over the trades whose result is LOSS. *)
Definition sum (xs : list number) : number := fold_left Num.add xs (num 0).

Definition mean (xs : list number) : number :=
  Num.div (sum xs) (num (Z.of_nat (length xs))).

Definition lossPnls (tradeEntries : list TradeEntry) : list number :=
  List.map pnl (List.filter isLoss tradeEntries).

Definition meanAbsLoss (tradeEntries : list TradeEntry) : number :=
  match lossPnls tradeEntries with
  | [] => num 0
  | xs => mean (List.map Num.abs xs)
  end.

Definition absMeanLoss (tradeEntries : list TradeEntry) : number :=
  match lossPnls tradeEntries with
  | [] => num 0
  | xs => Num.abs (mean xs)
  end.

(** The quotient of line 182 before it is clamped:
    ((currentCapital - startingCapital) / (targetCapital - startingCapital))
    * 100. *)
Definition rawProgress (settings : Settings) : number :=
  Num.mul
    (Num.div (Num.sub (currentCapital settings) (startingCapital settings))
             (Num.sub (targetCapital settings) (startingCapital settings)))
    (num 100).

(** [clampNumber lo hi x]: [x] brought into the interval from [lo] to [hi];
    NaN stays NaN. *)
Definition clampNumber (lo hi x : number) : number :=
  if Num.is_nan x then NaN
  else if Num.leb x lo then lo
  else if Num.leb hi x then hi
  else x.

(** The largest magnitude of an amount for which neither difference of
    line 182 leaves the finite range of binary64: two amounts of at most
    2^1022 differ by at most 2^1023. *)
Definition maxAmount : Q := inject_Z (2 ^ 1022).

(** A string is blank when it is empty or made of white space only. *)
Definition blank (s : jsstring) : bool := forallb ES.isWhiteSpace s.

(** A host for the examples: a fixed clock reading, and an upper-casing
    function that maps the letters a-z only. *)
Definition sampleEnv : Env :=
  mkEnv 1767225600000 (js "2026-01-01T00:00:00.000Z")
        (List.map (fun c => if ((97 <=? c) && (c <=? 122))%N then (c - 32)%N else c)).

(** The model once the stored data has been loaded from an empty storage. *)
Definition loadedModel : Model := setLoaded true initialModel.

(** A string with no decimal digit in it and no capital I (so that it does
    not spell Infinity): such an input holds no number. *)
Definition digitless (s : jsstring) : bool :=
  forallb (fun c => match ES.digit 10 c with
                    | Some _ => false
                    | None => negb (c =? 73)%N
                    end) s.

(** The value held in storage under a key: present when the host has a
    storage that can be read, the key has an item and the item parses. *)
Definition storedValue {T} `{JSON T} (h : Host) (key : jsstring) : option T :=
  match h with
  | Window items _ =>
      match items !! key with
      | Some bytes =>
          match parse bytes with
          | Normal v => Some v
          | Throw _ => None
          end
      | None => None
      end
  | _ => None
  end.

(** JSON on booleans (the literals [true] and [false]), for the examples. *)
#[local] Instance JSON_bool : JSON bool := {|
  stringify := fun b : bool => if b then js "true" else js "false";
  parse := fun s : list N =>
             if bool_decide (s = js "true") then Normal true
             else if bool_decide (s = js "false") then Normal false
             else Throw SyntaxError;
  parse_empty := eq_refl |}.

(** The four initial loads have been made. *)
Definition loadsDone (tr : list Action) : Prop :=
  In (Load STORAGE_KEYS.egoEntries) tr /\
  In (Load STORAGE_KEYS.tradeEntries) tr /\
  In (Load STORAGE_KEYS.drillEntries) tr /\
  In (Load STORAGE_KEYS.settings) tr.

(** Every save in the log comes after the four loads and after [Ready]. *)
Definition gated (tr : list Action) : Prop :=
  forall pre key value post,
    tr = pre ++ Save key value :: post -> In Ready pre /\ loadsDone pre.

Definition isSave (e : Action) : bool :=
  match e with Save _ _ => true | _ => false end.

(** What holds of every state reached from [start h0]: the log is gated;
    while the store is not ready the host is the initial one and nothing
    was saved; once it is ready, or once the animation frame is pending,
    the loads are in the log. *)
Record Inv (h0 : Host) (a : App) : Prop := mkInv {
  inv_gated : gated (trace a);
  inv_unready :
    loaded (model a) = false ->
    host a = h0 /\ forallb (fun e => negb (isSave e)) (trace a) = true;
  inv_ready :
    loaded (model a) = true -> In Ready (trace a) /\ loadsDone (trace a);
  inv_frame :
    frame a <> None -> loadsDone (trace a) }.

(** The win rate the specification words describe: the exact percentage of
    WIN trades, rounded to the nearest integer with halves rounded up, and
    0 for the empty list. *)
Definition exactPercent (wins total : Z) : Q :=
  (inject_Z 100 * inject_Z wins / inject_Z total)%Q.

Definition exactWinRate (tradeEntries : list TradeEntry) : number :=
  if (0 <? length tradeEntries)%nat
  then ES.round (Fin (exactPercent
                        (Z.of_nat (length (List.filter isWin tradeEntries)))
                        (Z.of_nat (length tradeEntries))))
  else num 0.

(** Is [q] exactly halfway between two integers? *)
Definition halfway (q : Q) : bool :=
  Qeq_bool (q + (1 # 2)) (inject_Z (Qfloor (q + (1 # 2)))).

(** The binary64 percentage of [winRate] as a function of the two counts. *)
Definition percent64 (wins total : Z) : float :=
  PrimFloat.mul
    (PrimFloat.div (PrimFloat.of_uint63 (Uint63.of_Z wins))
                   (PrimFloat.of_uint63 (Uint63.of_Z total)))
    (F64.of_nat 100).

(** Decision of [=n=]. *)
Definition num_eqb (a b : number) : bool :=
  match a, b with
  | NaN, NaN | NegInf, NegInf | PosInf, PosInf => true
  | Fin x, Fin y => Qeq_bool x y
  | _, _ => false
  end.

(** Checks over all counts [wins <= total] with [total] in a range: the
    rounded binary64 percentage is the rounded exact percentage
    ([agrees]), or is so unless the exact percentage is halfway between two
    integers, where it may be one less ([agreesOrHalf]). *)
Definition agrees (wins total : Z) : bool :=
  num_eqb (ES.round (F64.to_number (percent64 wins total)))
          (ES.round (Fin (exactPercent wins total))).

Definition agreesOrHalf (wins total : Z) : bool :=
  if agrees wins total then true
  else if halfway (exactPercent wins total)
  then num_eqb (ES.round (F64.to_number (percent64 wins total)))
               (Num.sub (ES.round (Fin (exactPercent wins total))) (num 1))
  else false.

(** [check wins total] for [wins = from, ..., from + n]. *)
Fixpoint forWins (check : Z -> Z -> bool) (n : nat) (from total : Z) : bool :=
  check from total &&
  match n with
  | O => true
  | S k => forWins check k (from + 1) total
  end.

(** [check wins total] for [total = from, ..., from + n - 1] and
    [0 <= wins <= total]. *)
Fixpoint forTotals (check : Z -> Z -> bool) (n : nat) (from : Z) : bool :=
  match n with
  | O => true
  | S k => forWins check (Z.to_nat from) 0 from && forTotals check k (from + 1)
  end.

(** Forty trades, the first 23 of them wins. *)
Definition fortyTrades : list TradeEntry :=
  repeat (tradeOf WIN 1) 23 ++ repeat (tradeOf LOSS (-1)) 17.

(** ** Further code of page.tsx *)

(** *** Ego colour (lines 58-66) *)

Definition getEgoColor (score : number) : jsstring :=
  if Num.leb score (num 20) then js "#8B0000"
  else if Num.leb score (num 40) then js "#CD853F"
  else if Num.leb score (num 55) then js "#808080"
  else if Num.leb score (num 70) then js "#FF8C00"
  else if Num.leb score (num 85) then js "#00F0FF"
  else if Num.leb score (num 95) then js "#00FF7F"
  else js "#FFD700".

(** The colours of the label reference of the ego page (lines 454-460), in
    the order of [egoTiers]. *)
Definition egoColors : list jsstring :=
  [js "#8B0000"; js "#CD853F"; js "#808080"; js "#FF8C00";
   js "#00F0FF"; js "#00FF7F"; js "#FFD700"].

(** *** Latest ego and trend (lines 162-164) *)

Definition latestEgo (egoEntries : list EgoEntry) : option EgoEntry :=
  if (0 <? length egoEntries)%nat
  then egoEntries !! (length egoEntries - 1)%nat
  else None.

Definition previousEgo (egoEntries : list EgoEntry) : option EgoEntry :=
  if (1 <? length egoEntries)%nat
  then egoEntries !! (length egoEntries - 2)%nat
  else None.

Definition egoTrend (egoEntries : list EgoEntry) : number :=
  match latestEgo egoEntries, previousEgo egoEntries with
  | Some latest, Some previous => Num.sub (score latest) (score previous)
  | _, _ => num 0
  end.

(** *** The Stats page, continued (lines 810-829) *)

Definition avgEgo (egoEntries : list EgoEntry) : number :=
  if (0 <? length egoEntries)%nat
  then ES.round
         (Num.div (fold_left (fun s e => Num.add s (score e)) egoEntries (num 0))
                  (num (Z.of_nat (length egoEntries))))
  else num 0.

Definition isCategory (c : DrillCategory) (d : DrillEntry) : bool :=
  match c, category d with
  | TRADING, TRADING | FITNESS, FITNESS | SKILL, SKILL | MINDSET, MINDSET => true
  | _, _ => false
  end.

Record CategoryStats := mkCategoryStats {
  statsTRADING : nat;
  statsFITNESS : nat;
  statsSKILL : nat;
  statsMINDSET : nat }.

Definition categoryStats (drillEntries : list DrillEntry) : CategoryStats :=
  {| statsTRADING := length (List.filter (isCategory TRADING) drillEntries);
     statsFITNESS := length (List.filter (isCategory FITNESS) drillEntries);
     statsSKILL := length (List.filter (isCategory SKILL) drillEntries);
     statsMINDSET := length (List.filter (isCategory MINDSET) drillEntries) |}.

Definition isBreakeven (t : TradeEntry) : bool :=
  match result t with BREAKEVEN => true | _ => false end.

(** *** The history lists (lines 485, 648, 776)

    [[...entries].reverse().slice(0, n)]: a reversed copy, cut to its first
    [n] elements. *)

Definition recentEgoEntries (entries : list EgoEntry) : list EgoEntry :=
  take 7 (rev entries).

Definition tradeHistory (entries : list TradeEntry) : list TradeEntry :=
  rev entries.

Definition recentDrills (entries : list DrillEntry) : list DrillEntry :=
  take 10 (rev entries).

(** *** The intensity bar of a drill (line 783)

    String.prototype.repeat (after ECMA-262): the count is truncated to an
    integer (NaN counts as 0); a negative or infinite count throws a
    RangeError, which is the result [None] here. *)

Definition toIntegerOrInfinity (a : number) : number :=
  match a with
  | NaN => num 0
  | Fin q => num (Z.quot (Qnum q) (Z.pos (Qden q)))
  | _ => a
  end.

Definition String_repeat (s : jsstring) (count : number) : option jsstring :=
  match toIntegerOrInfinity count with
  | Fin n => if Qltb n 0 then None
             else Some (List.concat (repeat s (Z.to_nat (Qfloor n))))
  | _ => None
  end.

(** The full block is U+2588, the light shade U+2591. *)
Definition intensityBar (intensity : number) : option jsstring :=
  match String_repeat [9608%N] intensity,
        String_repeat [9617%N] (Num.sub (num 10) intensity) with
  | Some full, Some light => Some (full ++ light)
  | _, _ => None
  end.

(** *** The ego page (lines 411-426, 444) *)

Module EgoLog.

Record Form := mkForm {
  score : number;
  notes : jsstring }.

Definition initialForm : Form := mkForm (num 50) [].

Definition newEntry (env : Env) (f : Form) : EgoEntry :=
  mkEgo
    (ES.toString (Date_now env))       (* id *)
    (Date_toISOString env)             (* date *)
    (score f)                          (* score *)
    (getEgoLabel (score f))            (* label *)
    (notes f).                         (* notes *)

Definition handleSubmit (env : Env) (onAdd : EgoEntry -> Model -> Model)
  (f : Form) (m : Model) : Form * Model :=
  (initialForm, onAdd (newEntry env f) m).

(** The slider: [setScore(parseInt(e.target.value))]. *)
Definition onChangeScore (value : jsstring) (f : Form) : Form :=
  mkForm (ES.parseInt value) (notes f).

End EgoLog.

(** *** The settings page (lines 962-996): the four [onChange] handlers *)

Module SettingsPage.

Definition onChangeStartingCapital (onUpdate : Settings -> Model -> Model)
  (settings : Settings) (value : jsstring) (m : Model) : Model :=
  onUpdate (mkSettings (Num.or (ES.parseInt value) (num 0))
                       (targetCapital settings)
                       (weeklyInjection settings)
                       (currentCapital settings)) m.

Definition onChangeTargetCapital (onUpdate : Settings -> Model -> Model)
  (settings : Settings) (value : jsstring) (m : Model) : Model :=
  onUpdate (mkSettings (startingCapital settings)
                       (Num.or (ES.parseInt value) (num 0))
                       (weeklyInjection settings)
                       (currentCapital settings)) m.

Definition onChangeWeeklyInjection (onUpdate : Settings -> Model -> Model)
  (settings : Settings) (value : jsstring) (m : Model) : Model :=
  onUpdate (mkSettings (startingCapital settings)
                       (targetCapital settings)
                       (Num.or (ES.parseInt value) (num 0))
                       (currentCapital settings)) m.

Definition onChangeCurrentCapital (onUpdate : Settings -> Model -> Model)
  (settings : Settings) (value : jsstring) (m : Model) : Model :=
  onUpdate (mkSettings (startingCapital settings)
                       (targetCapital settings)
                       (weeklyInjection settings)
                       (Num.or (ES.parseInt value) (num 0))) m.

End SettingsPage.

(** ** Further reference definitions *)

(** The stored label of an entry is the label of its score. *)
Definition labelled (e : EgoEntry) : Prop := label e = getEgoLabel (score e).

(** A host with a storage that accepts every write. *)
Definition writable (h : Host) : Prop :=
  match h with
  | Window _ accepts => forall key value, accepts key value = true
  | _ => False
  end.

(** The item stored under [key] is the serialization of [value]. *)
Definition holds {T} `{JSON T} (h : Host) (key : jsstring) (value : T) : Prop :=
  stored h !! key = Some (stringify value).

(** The storage holds the four collections of the model. *)
Definition mirrors `{JSON (list EgoEntry)} `{JSON (list TradeEntry)}
  `{JSON (list DrillEntry)} `{JSON Settings} (a : App) : Prop :=
  holds (host a) STORAGE_KEYS.egoEntries (egoEntries (model a)) /\
  holds (host a) STORAGE_KEYS.tradeEntries (tradeEntries (model a)) /\
  holds (host a) STORAGE_KEYS.drillEntries (drillEntries (model a)) /\
  holds (host a) STORAGE_KEYS.settings (settings (model a)).

(** The value survives serialization. *)
Definition survives {T} `{JSON T} (value : T) : Prop :=
  parse (stringify value) = Normal value.

(** What [loadFromStorage] finds under a key, or the default. *)
Definition found {T} `{JSON T} (h : Host) (key : jsstring) (defaultValue : T) : T :=
  match storedValue h key with
  | Some v => v
  | None => defaultValue
  end.

(** What holds of every state reached from [start h0], second part: data
    enters memory only once the store is ready, and the load runs once. *)
Record Settled (a : App) : Prop := mkSettled {
  settled_unready :
    loaded (model a) = false ->
    egoEntries (model a) = [] /\ tradeEntries (model a) = [] /\
    drillEntries (model a) = [] /\ settings (model a) = defaultSettings;
  settled_ready :
    loaded (model a) = true -> frame a = None /\ mounted a = true;
  settled_frame :
    frame a <> None -> mounted a = true }.

(** The storage is writable and, once the store is ready, holds what is in
    memory. *)
Definition synced `{JSON (list EgoEntry)} `{JSON (list TradeEntry)}
  `{JSON (list DrillEntry)} `{JSON Settings} (a : App) : Prop :=
  writable (host a) /\ (loaded (model a) = true -> mirrors a).

(** *** A lossless codec for the examples

    A value is written as one number, its code in an enumeration of the
    type; every value survives it. *)

Definition number_to_option (a : number) : option (option (option (Z * positive))) :=
  match a with
  | NaN => None
  | NegInf => Some None
  | PosInf => Some (Some None)
  | Fin q => Some (Some (Some (Qnum q, Qden q)))
  end.

Definition number_of_option (o : option (option (option (Z * positive)))) : number :=
  match o with
  | None => NaN
  | Some None => NegInf
  | Some (Some None) => PosInf
  | Some (Some (Some (n, d))) => Fin (n # d)
  end.

#[local] Instance Q_eq_dec : EqDecision Q.
Proof. solve_decision. Defined.

#[local] Instance number_eq_dec : EqDecision number.
Proof. solve_decision. Defined.

#[local] Instance number_countable : Countable number.
Proof.
  apply (inj_countable' number_to_option number_of_option).
  intros [| |[n d]|]; reflexivity.
Defined.

#[local] Instance TradeResult_eq_dec : EqDecision TradeResult.
Proof. solve_decision. Defined.

#[local] Instance TradeResult_countable : Countable TradeResult.
Proof.
  apply (inj_countable'
           (fun r => match r with WIN => 0%nat | LOSS => 1%nat | BREAKEVEN => 2%nat end)
           (fun n => match n with 0%nat => WIN | 1%nat => LOSS | _ => BREAKEVEN end)).
  intros []; reflexivity.
Defined.

#[local] Instance DrillCategory_eq_dec : EqDecision DrillCategory.
Proof. solve_decision. Defined.

#[local] Instance DrillCategory_countable : Countable DrillCategory.
Proof.
  apply (inj_countable'
           (fun c => match c with
                     | TRADING => 0%nat | FITNESS => 1%nat
                     | SKILL => 2%nat | MINDSET => 3%nat
                     end)
           (fun n => match n with
                     | 0%nat => TRADING | 1%nat => FITNESS
                     | 2%nat => SKILL | _ => MINDSET
                     end)).
  intros []; reflexivity.
Defined.

#[local] Instance EgoEntry_eq_dec : EqDecision EgoEntry.
Proof. solve_decision. Defined.

#[local] Instance EgoEntry_countable : Countable EgoEntry.
Proof.
  apply (inj_countable'
           (fun e => (ego_id e, ego_date e, score e, label e, ego_notes e))
           (fun t => let '(i, d, s, l, n) := t in mkEgo i d s l n)).
  intros []; reflexivity.
Defined.

#[local] Instance TradeEntry_eq_dec : EqDecision TradeEntry.
Proof. solve_decision. Defined.

#[local] Instance TradeEntry_countable : Countable TradeEntry.
Proof.
  apply (inj_countable'
           (fun t => (trade_id t, trade_date t, ticker t, entryPrice t,
                      exitPrice t, shares t, result t, pnl t, trade_notes t))
           (fun t => let '(i, d, k, en, ex, sh, r, p, n) := t in
                     mkTrade i d k en ex sh r p n)).
  intros []; reflexivity.
Defined.

#[local] Instance DrillEntry_eq_dec : EqDecision DrillEntry.
Proof. solve_decision. Defined.

#[local] Instance DrillEntry_countable : Countable DrillEntry.
Proof.
  apply (inj_countable'
           (fun d => (drill_id d, drill_date d, weapon d, intensity d, category d))
           (fun t => let '(i, d, w, n, c) := t in mkDrill i d w n c)).
  intros []; reflexivity.
Defined.

#[local] Instance Settings_eq_dec : EqDecision Settings.
Proof. solve_decision. Defined.

#[local] Instance Settings_countable : Countable Settings.
Proof.
  apply (inj_countable'
           (fun s => (startingCapital s, targetCapital s, weeklyInjection s,
                      currentCapital s))
           (fun t => let '(a, b, c, d) := t in mkSettings a b c d)).
  intros []; reflexivity.
Defined.

Definition pickle (T : Type) `{Countable T} : JSON T := {|
  stringify := fun v : T => [N.pos (encode v)];
  parse := fun s : list N =>
             match s with
             | [N.pos p] =>
                 match decode p with
                 | Some v => Normal v
                 | None => Throw SyntaxError
                 end
             | _ => Throw SyntaxError
             end;
  parse_empty := eq_refl |}.

(** A run on the sample codec, from an empty storage that accepts every
    write. *)
Definition sampleRun (inputs : list Input) : App :=
  @run (pickle (list EgoEntry)) (pickle (list TradeEntry))
       (pickle (list DrillEntry)) (pickle Settings)
       inputs (start (Window ∅ (fun _ _ => true))).

Definition sampleEgo : EgoEntry :=
  mkEgo (js "1767225600000") (js "2026-01-01T00:00:00.000Z") (num 72)
        (js "EGOIST") (js "first goal").

(** Starting the application again on the host a state has left behind. *)
Definition sampleReload (a : App) : App :=
  @run (pickle (list EgoEntry)) (pickle (list TradeEntry))
       (pickle (list DrillEntry)) (pickle Settings)
       [Mount; AnimationFrame] (start (host a)).

Definition sampleStep (i : Input) (a : App) : App :=
  @step (pickle (list EgoEntry)) (pickle (list TradeEntry))
        (pickle (list DrillEntry)) (pickle Settings) i a.

(** * Properties *)

(** ** Comparisons of integer-valued numbers *)

Lemma num_leb (a b : Z) : Num.leb (num a) (num b) = (a <=? b).
Proof.
  unfold Num.leb, num, Qle_bool, inject_Z; simpl.
  now rewrite !Z.mul_1_r.
Qed.

(** ** Classification *)

Lemma tierOf_thresholdTier (s : Z) : tierOf (num s) = thresholdTier s.
Proof.
  unfold tierOf, getEgoLabel, thresholdTier.
  rewrite !num_leb.
  repeat (match goal with |- context [?a <=? ?b] => destruct (a <=? b) end;
          [vm_compute; reflexivity|]).
  vm_compute; reflexivity.
Qed.

Lemma thresholdTier_range (s : Z) : (1 <= thresholdTier s <= 7)%nat.
Proof.
  unfold thresholdTier.
  repeat (match goal with |- context [?a <=? ?b] => destruct (a <=? b) end;
          [lia|]).
  lia.
Qed.

Lemma thresholdTier_mono (s s' : Z) :
  s <= s' -> (thresholdTier s <= thresholdTier s')%nat.
Proof.
  intros Hle. unfold thresholdTier.
  repeat match goal with
         | |- context [?a <=? ?b] => destruct (Z.leb_spec a b)
         end; lia.
Qed.

Lemma egoTiers_NoDup : NoDup egoTiers.
Proof. apply (bool_decide_unpack (NoDup egoTiers)). vm_compute. exact I. Qed.

(** C3: for an integer score s in [0,100] the label returned by getEgoLabel
    is one of seven distinct ordered tiers, namely the one the inclusive
    upper bounds 20, 40, 55, 70, 85, 95 select (tier 7 above 95), and the
    tier does not decrease as the score increases. *)
Theorem getEgoLabel_seven_tiers (s : Z) (Hs : 0 <= s <= 100) :
  tierOf (num s) = thresholdTier s /\
  (1 <= tierOf (num s) <= 7)%nat /\
  nth_error egoTiers (tierOf (num s) - 1) = Some (getEgoLabel (num s)) /\
  length egoTiers = 7%nat /\
  NoDup egoTiers /\
  forall s', s <= s' <= 100 -> (tierOf (num s) <= tierOf (num s'))%nat.
Proof.
  split; [apply tierOf_thresholdTier|].
  split; [rewrite tierOf_thresholdTier; apply thresholdTier_range|].
  split.
  - unfold tierOf, getEgoLabel. rewrite !num_leb.
    repeat (match goal with |- context [?a <=? ?b] => destruct (a <=? b) end;
            [vm_compute; reflexivity|]).
    vm_compute; reflexivity.
  - split; [reflexivity|]. split; [apply egoTiers_NoDup|].
    intros s' Hs'. rewrite !tierOf_thresholdTier.
    apply thresholdTier_mono. lia.
Qed.

Lemma getEgoLabel_seven_tiers_witness :
  0 <= 56 <= 100 /\ tierOf (num 56) = 4%nat /\
  (tierOf (num 56) <= tierOf (num 90))%nat.
Proof.
  pose proof (getEgoLabel_seven_tiers 56 ltac:(lia)) as (Ht & _ & _ & _ & _ & Hm).
  split; [lia|]. split.
  - exact Ht.
  - apply Hm. lia.
Defined.

(** ** Drill streak *)

Lemma streak_loop_takeWhile (l : list DrillEntry) :
  forall n count, (n <= length l)%nat ->
    streak_loop l n count
    = (count + length (takeWhile qualifies (rev (take n l))))%nat.
Proof.
  induction n as [|i IH]; intros count Hn; cbn [streak_loop].
  - simpl. lia.
  - assert (Hi : (i < length l)%nat) by lia.
    destruct (lookup_lt_is_Some_2 l i Hi) as [d Hd].
    rewrite Hd, (take_S_r l i d Hd), rev_app_distr.
    cbn [rev app takeWhile].
    change (Num.geb (intensity d) (num 5)) with (qualifies d).
    destruct (qualifies d); cbn [length].
    + rewrite IH by lia. lia.
    + lia.
Qed.

Lemma takeWhile_decompose {A} (p : A -> bool) (l : list A) :
  exists rest, l = takeWhile p l ++ rest /\
    Forall (fun x => p x = true) (takeWhile p l) /\
    (rest = [] \/ exists x r, rest = x :: r /\ p x = false).
Proof.
  induction l as [|x l (rest & Heq & Hall & Hrest)]; simpl.
  - exists []. repeat split; [constructor | now left].
  - destruct (p x) eqn:Hp.
    + exists rest. repeat split.
      * simpl. now rewrite <- Heq.
      * now constructor.
      * exact Hrest.
    + exists (x :: l). repeat split; [constructor | right; eauto].
Qed.

Lemma streak_trailingRun (l : list DrillEntry) : streak l = trailingRun l.
Proof.
  unfold streak, trailingRun.
  rewrite streak_loop_takeWhile by lia.
  now rewrite firstn_all.
Qed.

(** C4: the streak is the number of consecutive entries with intensity >= 5
    counted backward from the most recent entry, that is the length of the
    longest suffix of qualifying entries: the entry just before that suffix,
    if there is one, is below 5.  Over intensities 8, 3, 9, 9 it is 2. *)
Theorem streak_maximal_qualifying_suffix (drillEntries : list DrillEntry) :
  streak drillEntries = trailingRun drillEntries /\
  (exists older run,
      drillEntries = older ++ run /\
      length run = streak drillEntries /\
      Forall (fun d => Num.geb (intensity d) (num 5) = true) run /\
      (older = [] \/
       exists older' d, older = older' ++ [d] /\
                        Num.geb (intensity d) (num 5) = false)) /\
  streak (List.map drillOf [8; 3; 9; 9]) = 2%nat.
Proof.
  split; [apply streak_trailingRun|]. split; [|reflexivity].
  rewrite streak_trailingRun. unfold trailingRun.
  destruct (takeWhile_decompose qualifies (rev drillEntries))
    as (rest & Heq & Hall & Hrest).
  exists (rev rest), (rev (takeWhile qualifies (rev drillEntries))).
  split; [|split; [|split]].
  - rewrite <- rev_app_distr, <- Heq. now rewrite rev_involutive.
  - now rewrite length_rev.
  - apply Forall_rev. exact Hall.
  - destruct Hrest as [-> | (x & r & -> & Hx)]; [now left|].
    right. exists (rev r), x. split; [reflexivity | exact Hx].
Qed.

(** ** Reset *)

(** C5: resetAll (the [onReset] callback of the settings page) leaves the
    ego, trade and drill collections empty and the settings record equal to
    its value before the operation. *)
Theorem onReset_empties_collections_keeps_settings (m : Model) :
  egoEntries (onReset m) = [] /\
  tradeEntries (onReset m) = [] /\
  drillEntries (onReset m) = [] /\
  settings (onReset m) = settings m /\
  startingCapital (settings (onReset m)) = startingCapital (settings m) /\
  targetCapital (settings (onReset m)) = targetCapital (settings m) /\
  weeklyInjection (settings (onReset m)) = weeklyInjection (settings m) /\
  currentCapital (settings (onReset m)) = currentCapital (settings m).
Proof. repeat split. Qed.

(** ** Equality of numbers as values *)

Lemma num_eq_refl (a : number) : a =n= a.
Proof. destruct a; simpl; auto. reflexivity. Qed.

Lemma num_eq_sym (a b : number) : a =n= b -> b =n= a.
Proof. destruct a, b; simpl; auto. intros E. now symmetry. Qed.

Lemma num_eq_trans (a b c : number) : a =n= b -> b =n= c -> a =n= c.
Proof.
  destruct a, b, c; simpl; auto; try contradiction.
  intros E1 E2. now rewrite E1.
Qed.

Lemma add_proper (a a' b b' : number) :
  a =n= a' -> b =n= b' -> Num.add a b =n= Num.add a' b'.
Proof.
  destruct a, a', b, b'; simpl; auto; try contradiction.
  intros E1 E2. now rewrite E1, E2.
Qed.

Lemma neg_add (a b : number) :
  Num.neg (Num.add a b) =n= Num.add (Num.neg a) (Num.neg b).
Proof. destruct a, b; simpl; auto. ring. Qed.

Lemma abs_nonpos (a : number) :
  Num.leb a (num 0) = true -> Num.abs a =n= Num.neg a.
Proof.
  destruct a; simpl; auto; try discriminate.
  intros H. apply Qle_bool_iff in H. apply Qabs_neg. exact H.
Qed.

Lemma add_nonpos (a b : number) :
  Num.leb a (num 0) = true -> Num.leb b (num 0) = true ->
  Num.leb (Num.add a b) (num 0) = true.
Proof.
  destruct a, b; simpl; auto.
  intros Ha Hb. apply Qle_bool_iff in Ha, Hb. apply Qle_bool_iff.
  unfold inject_Z in *. lra.
Qed.

Lemma div_proper_l (a a' b : number) :
  a =n= a' -> Num.div a b =n= Num.div a' b.
Proof.
  destruct a as [| |x|], a' as [| |x'|], b as [| |y|];
    simpl; auto; try contradiction; try reflexivity.
  - intros _. apply num_eq_refl.
  - intros E. destruct (Qeq_bool y 0).
    + assert (Hc : (x ?= 0)%Q = (x' ?= 0)%Q) by now rewrite E.
      rewrite Hc. apply num_eq_refl.
    + simpl. now rewrite E.
  - intros _. apply num_eq_refl.
Qed.

(** ** Average loss *)

Lemma fold_left_pnl (ts : list TradeEntry) (acc : number) :
  fold_left (fun s t => Num.add s (pnl t)) ts acc
  = fold_left Num.add (List.map pnl ts) acc.
Proof.
  revert acc. induction ts as [|t ts IH]; intros acc; simpl; [reflexivity|].
  apply IH.
Qed.

Lemma avgLoss_absMeanLoss (l : list TradeEntry) :
  Stats.avgLoss l = absMeanLoss l.
Proof.
  unfold Stats.avgLoss, absMeanLoss, Stats.losses, lossPnls.
  rewrite fold_left_pnl.
  destruct (List.filter isLoss l) as [|t ts]; [reflexivity|].
  change (List.map pnl (t :: ts)) with (pnl t :: List.map pnl ts).
  cbv beta iota. unfold mean, sum. cbn [length].
  now rewrite length_map.
Qed.

Lemma sum_abs_nonpos (xs : list number) :
  Forall (fun x => Num.leb x (num 0) = true) xs ->
  forall acc acc', acc' =n= Num.neg acc ->
    fold_left Num.add (List.map Num.abs xs) acc'
    =n= Num.neg (fold_left Num.add xs acc).
Proof.
  induction 1 as [|x xs Hx _ IH]; intros acc acc' E; simpl; [exact E|].
  apply IH.
  eapply num_eq_trans; [|apply num_eq_sym, neg_add].
  apply add_proper; [exact E | now apply abs_nonpos].
Qed.

Lemma sum_nonpos (xs : list number) :
  Forall (fun x => Num.leb x (num 0) = true) xs ->
  forall acc, Num.leb acc (num 0) = true ->
    Num.leb (fold_left Num.add xs acc) (num 0) = true.
Proof.
  induction 1 as [|x xs Hx _ IH]; intros acc Hacc; simpl; [exact Hacc|].
  apply IH. now apply add_nonpos.
Qed.

Lemma abs_div_nonpos (a : number) (k : Z) :
  0 < k ->
  Num.leb a (num 0) = true ->
  Num.abs (Num.div a (num k)) =n= Num.div (Num.neg a) (num k).
Proof.
  intros Hpos.
  assert (Hk : (0 < inject_Z k)%Q).
  { unfold Qlt, inject_Z; simpl. lia. }
  assert (Hk0 : Qeq_bool (inject_Z k) 0 = false).
  { apply not_true_is_false. intros H. apply Qeq_bool_iff in H. lra. }
  unfold num. generalize dependent (inject_Z k). clear k Hpos.
  intros y Hy Hy0.
  destruct a as [| |x|]; simpl; auto; try discriminate.
  - intros _. destruct (Qcompare_spec y 0); simpl; auto; lra.
  - intros Hx. apply Qle_bool_iff in Hx. unfold inject_Z in Hx.
    rewrite Hy0. simpl.
    assert (Hle : (x / y <= 0)%Q).
    { apply Qle_shift_div_r; [exact Hy | lra]. }
    rewrite (Qabs_neg _ Hle). field. lra.
Qed.

(** C1 (as stated, it fails): over two LOSS trades with pnl -20 and +10 the
    average-loss statistic is 5, while the mean of the absolute values of
    pnl over the LOSS subset is 15. *)
Lemma avgLoss_not_mean_of_abs :
  let l := [tradeOf LOSS (-20); tradeOf LOSS 10] in
  Stats.avgLoss l =n= num 5 /\
  meanAbsLoss l =n= num 15 /\
  ~ Stats.avgLoss l =n= meanAbsLoss l.
Proof.
  repeat split; try reflexivity.
  vm_compute. discriminate.
Qed.

(** C1 (amended): for every list of trades the average-loss statistic is the
    absolute value of the mean of pnl over the trades whose result is LOSS,
    and 0 when there is none; it equals the mean of the absolute values
    whenever no LOSS trade has a positive pnl; over the two LOSS trades with
    pnl -20 and -10 it is 15. *)
Theorem avgLoss_abs_of_mean (l : list TradeEntry) :
  Stats.avgLoss l = absMeanLoss l /\
  (lossPnls l = [] -> Stats.avgLoss l = num 0) /\
  (Forall (fun x => Num.leb x (num 0) = true) (lossPnls l) ->
   Stats.avgLoss l =n= meanAbsLoss l) /\
  Stats.avgLoss [tradeOf LOSS (-20); tradeOf LOSS (-10)] =n= num 15.
Proof.
  split; [apply avgLoss_absMeanLoss|].
  split; [|split; [|reflexivity]].
  - intros Hnil. rewrite avgLoss_absMeanLoss. unfold absMeanLoss.
    now rewrite Hnil.
  - intros Hall. rewrite avgLoss_absMeanLoss.
    unfold absMeanLoss, meanAbsLoss.
    destruct (lossPnls l) as [|x xs] eqn:Hxs; [apply num_eq_refl|].
    unfold mean. rewrite length_map. cbn [length].
    eapply num_eq_trans.
    + apply abs_div_nonpos; [lia|].
      apply sum_nonpos; [exact Hall | reflexivity].
    + apply num_eq_sym, div_proper_l.
      apply sum_abs_nonpos; [exact Hall | reflexivity].
Qed.

Lemma avgLoss_abs_of_mean_witness :
  let l := [tradeOf LOSS (-20); tradeOf WIN 5; tradeOf LOSS (-10)] in
  Stats.avgLoss l =n= meanAbsLoss l /\
  Stats.avgLoss [tradeOf WIN 5] = num 0.
Proof.
  split.
  - apply (avgLoss_abs_of_mean
             [tradeOf LOSS (-20); tradeOf WIN 5; tradeOf LOSS (-10)]).
    repeat constructor.
  - apply (avgLoss_abs_of_mean [tradeOf WIN 5]). reflexivity.
Defined.

(** ** Progress percent *)

Lemma Qltb_lt (a b : Q) : Qltb a b = true <-> (a < b)%Q.
Proof.
  unfold Qltb. rewrite negb_true_iff. split.
  - intros H. apply Qnot_le_lt. intros Hle.
    apply Qle_bool_iff in Hle. congruence.
  - intros H. apply not_true_is_false. intros Hle.
    apply Qle_bool_iff in Hle. lra.
Qed.

Lemma Qltb_ge (a b : Q) : Qltb a b = false <-> (b <= a)%Q.
Proof.
  unfold Qltb. rewrite negb_false_iff. apply Qle_bool_iff.
Qed.

(** On finite amounts with different starting and target capital the
    statistic is a finite number: the clamped quotient. *)
Lemma progressPercent_finite (st : Settings) (c s t : Q) :
  currentCapital st = Fin c ->
  startingCapital st = Fin s ->
  targetCapital st = Fin t ->
  ~ (s == t)%Q ->
  let p := ((c + - s) / (t + - s) * inject_Z 100)%Q in
  progressPercent st
  = if Qltb 0 p then (if Qltb p (inject_Z 100) then Fin p else num 100)
    else num 0.
Proof.
  intros Hc Hs Ht Hne p. unfold progressPercent.
  rewrite Hc, Hs, Ht. cbn [Num.sub Num.neg Num.add Num.div].
  assert (H0 : Qeq_bool (t + - s) 0 = false).
  { apply not_true_is_false. intros H. apply Qeq_bool_iff in H.
    apply Hne. lra. }
  rewrite H0. unfold Num.max, Num.min, Num.mul, num.
  fold p. cbn [Num.is_nan orb Num.ltb].
  change (inject_Z 0) with 0%Q.
  destruct (Qltb 0 p) eqn:Hp; cbn [Num.is_nan orb Num.ltb].
  - destruct (Qltb p (inject_Z 100)); reflexivity.
  - reflexivity.
Qed.

(** C2 (as stated, it fails): with startingCapital 100, targetCapital 0 and
    currentCapital 50 the current capital is below the starting capital and
    at or above the target capital, yet the progress percent is 50, neither
    0 nor 100. *)
Lemma progressPercent_target_below_start :
  let st := mkSettings (num 100) (num 0) (num 60) (num 50) in
  Num.ltb (currentCapital st) (startingCapital st) = true /\
  Num.geb (currentCapital st) (targetCapital st) = true /\
  progressPercent st =n= num 50 /\
  ~ progressPercent st =n= num 0 /\
  ~ progressPercent st =n= num 100.
Proof.
  repeat split; try reflexivity; vm_compute; discriminate.
Qed.

(** When the three amounts coincide the quotient is 0/0 and the statistic is
    NaN. *)
Lemma progressPercent_zero_span (x : Q) :
  progressPercent (mkSettings (Fin x) (Fin x) (num 60) (Fin x)) = NaN.
Proof.
  unfold progressPercent. cbn [currentCapital startingCapital targetCapital].
  cbn [Num.sub Num.neg Num.add Num.div].
  assert (H0 : Qeq_bool (x + - x) 0 = true) by (apply Qeq_bool_iff; lra).
  assert (Hc : ((x + - x) ?= 0)%Q = Eq) by (apply Qeq_alt; lra).
  rewrite H0, Hc. reflexivity.
Qed.

(** Math.min(100, Math.max(0, x)) is x clamped to [0, 100], for every
    number x. *)
Lemma min_max_clampNumber (x : number) :
  Num.min (num 100) (Num.max (num 0) x) = clampNumber (num 0) (num 100) x.
Proof.
  destruct x as [| |q|]; try reflexivity.
  unfold clampNumber, Num.max, Num.min, num.
  cbn [Num.is_nan orb Num.ltb Num.leb]. unfold Qltb.
  destruct (Qle_bool q (inject_Z 0)); cbn [negb].
  - reflexivity.
  - cbn [Num.is_nan orb Num.ltb]. unfold Qltb.
    destruct (Qle_bool (inject_Z 100) q); reflexivity.
Qed.

(** C2 (amended): for every settings record the progress percent is the
    quotient ((currentCapital - startingCapital) / (targetCapital -
    startingCapital)) * 100 clamped to [0, 100], NaN staying NaN; and when
    the three amounts are finite, of magnitude at most 2^1022, with
    targetCapital above startingCapital, a currentCapital below
    startingCapital gives 0 and a currentCapital at or above targetCapital
    gives 100.  (The bound keeps both differences finite in binary64; within
    it the sign and the order of the exact quotient are those of the
    computed one.) *)
Theorem progressPercent_clamped (st : Settings) :
  progressPercent st = clampNumber (num 0) (num 100) (rawProgress st) /\
  forall c s t : Q,
    currentCapital st = Fin c ->
    startingCapital st = Fin s ->
    targetCapital st = Fin t ->
    (Qabs c <= maxAmount)%Q ->
    (Qabs s <= maxAmount)%Q ->
    (Qabs t <= maxAmount)%Q ->
    (s < t)%Q ->
    ((c < s)%Q -> progressPercent st = num 0) /\
    ((t <= c)%Q -> progressPercent st = num 100).
Proof.
  split.
  - apply min_max_clampNumber.
  - intros c s t Hc Hs Ht _ _ _ Hst.
    assert (Hne : ~ (s == t)%Q) by lra.
    pose proof (progressPercent_finite st c s t Hc Hs Ht Hne) as Hp.
    cbv zeta in Hp. rewrite Hp. clear Hp.
    set (p := ((c + - s) / (t + - s) * inject_Z 100)%Q).
    assert (Hpq : (p == 100 * (c - s) / (t - s))%Q).
    { subst p. change (inject_Z 100) with 100%Q. field. lra. }
    split.
    + intros Hcs.
      assert (Hle : (p <= 0)%Q).
      { rewrite Hpq. apply Qle_shift_div_r; lra. }
      clear Hpq.
      apply Qltb_ge in Hle. now rewrite Hle.
    + intros Htc.
      assert (Hge : (100 <= p)%Q).
      { rewrite Hpq. apply Qle_shift_div_l; lra. }
      replace (Qltb 0 p) with true by (symmetry; apply Qltb_lt; lra).
      change (inject_Z 100) with 100%Q.
      apply Qltb_ge in Hge. now rewrite Hge.
Qed.

Lemma progressPercent_clamped_witness :
  progressPercent (mkSettings (num 4705) (num 10000) (num 60) (num 4000)) = num 0 /\
  progressPercent (mkSettings (num 4705) (num 10000) (num 60) (num 12000)) = num 100.
Proof.
  split.
  - apply (proj2 (progressPercent_clamped
                    (mkSettings (num 4705) (num 10000) (num 60) (num 4000)))
                 (inject_Z 4000) (inject_Z 4705) (inject_Z 10000));
      try reflexivity; vm_compute; discriminate.
  - apply (proj2 (progressPercent_clamped
                    (mkSettings (num 4705) (num 10000) (num 60) (num 12000)))
                 (inject_Z 12000) (inject_Z 4705) (inject_Z 10000));
      try reflexivity; vm_compute; discriminate.
Defined.

(** ** Submitting a drill *)

Lemma trimStart_cases (s : jsstring) :
  (ES.trimStart s = [] /\ blank s = true) \/
  (exists c r, ES.trimStart s = c :: r /\ ES.isWhiteSpace c = false /\
               blank s = false).
Proof.
  induction s as [|c s IH]; [now left|].
  cbn [ES.trimStart blank forallb].
  destruct (ES.isWhiteSpace c) eqn:Hc; [exact IH|].
  right. exists c, s. auto.
Qed.

Lemma blank_rev (s : jsstring) : blank (rev s) = blank s.
Proof.
  unfold blank. induction s as [|c s IH]; [reflexivity|].
  cbn [rev forallb]. rewrite forallb_app, IH. cbn [forallb].
  rewrite andb_true_r. apply andb_comm.
Qed.

Lemma trimEnd_nil (s : jsstring) : ES.trimEnd s = [] <-> blank s = true.
Proof.
  unfold ES.trimEnd. rewrite <- (blank_rev s).
  destruct (trimStart_cases (rev s)) as [[H1 H2] | (c & r & H1 & _ & H2)];
    rewrite H1, H2; cbn [rev].
  - tauto.
  - split; [|discriminate]. intros H. now apply app_eq_nil in H as [_ H].
Qed.

Lemma trim_nil (s : jsstring) : ES.trim s = [] <-> blank s = true.
Proof.
  unfold ES.trim. rewrite trimEnd_nil.
  destruct (trimStart_cases s) as [[H1 H2] | (c & r & H1 & Hc & H2)];
    rewrite H1, H2.
  - tauto.
  - cbn [blank forallb]. rewrite Hc. tauto.
Qed.

Lemma trim_truthy (s : jsstring) :
  string_truthy (ES.trim s) = negb (blank s).
Proof.
  destruct (blank s) eqn:Hb.
  - apply trim_nil in Hb. now rewrite Hb.
  - destruct (ES.trim s) eqn:Ht; [|reflexivity].
    apply trim_nil in Ht. congruence.
Qed.

(** C7 (as stated, it fails): a weapon field holding one space is not empty,
    yet submitting it appends nothing: the drill collection is unchanged. *)
Lemma handleSubmit_space_appends_nothing :
  let f := WeaponDrills.mkForm (js " ") (num 5) TRADING in
  WeaponDrills.weapon f <> [] /\
  drillEntries (snd (WeaponDrills.handleSubmit sampleEnv onAddDrill f loadedModel))
  = drillEntries loadedModel.
Proof. split; [discriminate | reflexivity]. Qed.

(** C7 (amended): submitting a drill whose weapon field is blank (empty or
    white space only) is a no-op: the form and the store, hence the drill
    collection, are unchanged, and the handler has no failing path; a
    submission whose weapon holds a character that is not white space
    appends exactly one entry, carrying the weapon as typed, the intensity
    and the category, and leaves the other collections and the settings
    unchanged. *)
Theorem handleSubmit_blank_noop_else_append
  (env : Env) (f : WeaponDrills.Form) (m : Model) :
  (blank (WeaponDrills.weapon f) = true ->
   WeaponDrills.handleSubmit env onAddDrill f m = (f, m)) /\
  (blank (WeaponDrills.weapon f) = false ->
   let m' := snd (WeaponDrills.handleSubmit env onAddDrill f m) in
   exists entry,
     drillEntries m' = drillEntries m ++ [entry] /\
     weapon entry = WeaponDrills.weapon f /\
     intensity entry = WeaponDrills.intensity f /\
     category entry = WeaponDrills.category f /\
     egoEntries m' = egoEntries m /\
     tradeEntries m' = tradeEntries m /\
     settings m' = settings m).
Proof.
  unfold WeaponDrills.handleSubmit. rewrite trim_truthy, negb_involutive.
  split; intros Hb; rewrite Hb; [reflexivity|].
  cbn [snd]. eexists. repeat split.
Qed.

Lemma handleSubmit_blank_noop_else_append_witness :
  WeaponDrills.handleSubmit sampleEnv onAddDrill
    (WeaponDrills.mkForm (js "  ") (num 7) FITNESS) loadedModel
  = (WeaponDrills.mkForm (js "  ") (num 7) FITNESS, loadedModel) /\
  exists entry,
    drillEntries
      (snd (WeaponDrills.handleSubmit sampleEnv onAddDrill
              (WeaponDrills.mkForm (js "left foot") (num 7) FITNESS) loadedModel))
    = [entry] /\ weapon entry = js "left foot".
Proof.
  split.
  - apply (handleSubmit_blank_noop_else_append sampleEnv
             (WeaponDrills.mkForm (js "  ") (num 7) FITNESS) loadedModel).
    reflexivity.
  - destruct (proj2 (handleSubmit_blank_noop_else_append sampleEnv
                       (WeaponDrills.mkForm (js "left foot") (num 7) FITNESS)
                       loadedModel) eq_refl)
      as (entry & Hd & Hw & _).
    exists entry. split; [exact Hd | exact Hw].
Defined.

(** ** Submitting a trade *)

Lemma or_falsy (a b : number) : Num.truthy a = false -> Num.or a b = b.
Proof. unfold Num.or. now intros ->. Qed.

Lemma digitless_trimStart (s : jsstring) :
  digitless s = true -> digitless (ES.trimStart s) = true.
Proof.
  induction s as [|c s IH]; [auto|].
  cbn [ES.trimStart]. destruct (ES.isWhiteSpace c); [|auto].
  intros H. apply IH. cbn [digitless forallb] in H.
  now apply andb_true_iff in H as [_ H].
Qed.

Lemma digitless_signOf (s : jsstring) :
  digitless s = true -> digitless (snd (ES.signOf s)) = true.
Proof.
  destruct s as [|c s]; [auto|]. intros H.
  assert (Hs : digitless s = true).
  { cbn [digitless forallb] in H. now apply andb_true_iff in H as [_ H]. }
  unfold ES.signOf.
  destruct c as [|p]; [exact H|].
  do 6 (destruct p as [p|p|]; try exact H; try exact Hs).
Qed.

Lemma digitless_digits (s : jsstring) :
  digitless s = true -> ES.digits 10 s = ([], s).
Proof.
  destruct s as [|c s]; [reflexivity|].
  cbn [digitless forallb ES.digits]. intros H.
  apply andb_true_iff in H as [H _].
  destruct (ES.digit 10 c); [discriminate | reflexivity].
Qed.

Lemma digitless_head (c : N) (s : jsstring) :
  digitless (c :: s) = true ->
  ES.digit 10 c = None /\ c <> 73%N /\ digitless s = true.
Proof.
  cbn [digitless forallb]. intros H.
  apply andb_true_iff in H as [H Hs].
  destruct (ES.digit 10 c); [discriminate|].
  apply negb_true_iff, N.eqb_neq in H. auto.
Qed.

Lemma parseInt_digitless (s : jsstring) :
  digitless s = true -> ES.parseInt s = NaN.
Proof.
  intros H. apply digitless_trimStart, digitless_signOf in H.
  unfold ES.parseInt.
  destruct (ES.signOf (ES.trimStart s)) as [sign u]. cbn [snd] in H.
  destruct u as [|c u]; [reflexivity|].
  destruct (digitless_head c u H) as (Hc & _ & _).
  destruct (N.eq_dec c 48%N) as [-> | Hne]; [discriminate Hc|].
  assert (Hm : match c :: u with
               | 48%N :: 120%N :: rest | 48%N :: 88%N :: rest => (16%N, rest)
               | _ => (10%N, c :: u)
               end = (10%N, c :: u)).
  { destruct c as [|p]; [reflexivity|].
    do 6 (destruct p as [p|p|]; try reflexivity); congruence. }
  rewrite Hm, (digitless_digits (c :: u) H). reflexivity.
Qed.





(** ** Loading from storage *)

Lemma loadFromStorage_storedValue {T} `{JSON T}
  (h : Host) (key : jsstring) (defaultValue : T) :
  loadFromStorage h key defaultValue
  = Normal (match storedValue h key with
            | Some v => v
            | None => defaultValue
            end).
Proof.
  unfold loadFromStorage, storedValue.
  destruct h as [| |items accepts]; cbn; try reflexivity.
  destruct (items !! key) as [bytes|]; [|reflexivity].
  destruct bytes as [|c bytes]; cbn.
  - now rewrite parse_empty.
  - destruct (parse (c :: bytes)); reflexivity.
Qed.

(** C8: for every key and default value, loadFromStorage completes normally
    (it never throws); it returns the parsed stored value when the key is
    present and its bytes parse, and the default value when the key is
    absent, when the bytes do not parse, and when there is no window or the
    storage cannot be accessed. *)
Theorem loadFromStorage_value_or_default {T} `{JSON T}
  (h : Host) (key : jsstring) (defaultValue : T) :
  loadFromStorage h key defaultValue
  = Normal (match storedValue h key with
            | Some v => v
            | None => defaultValue
            end) /\
  (forall items accepts bytes v,
      h = Window items accepts -> items !! key = Some bytes ->
      parse bytes = Normal v ->
      loadFromStorage h key defaultValue = Normal v) /\
  (forall items accepts,
      h = Window items accepts -> items !! key = None ->
      loadFromStorage h key defaultValue = Normal defaultValue) /\
  (forall items accepts bytes e,
      h = Window items accepts -> items !! key = Some bytes ->
      parse bytes = Throw e ->
      loadFromStorage h key defaultValue = Normal defaultValue) /\
  (h = NoWindow \/ h = NoAccess ->
   loadFromStorage h key defaultValue = Normal defaultValue).
Proof.
  rewrite loadFromStorage_storedValue. split; [reflexivity|].
  split; [|split; [|split]].
  - intros items accepts bytes v -> Hk Hp. cbn. now rewrite Hk, Hp.
  - intros items accepts -> Hk. cbn. now rewrite Hk.
  - intros items accepts bytes e -> Hk Hp. cbn. now rewrite Hk, Hp.
  - intros [-> | ->]; reflexivity.
Qed.

Lemma loadFromStorage_value_or_default_witness :
  let items : gmap (list N) (list N) :=
    <[js "flag" := js "true"]> (<[js "junk" := js "{oops"]> ∅) in
  let h := Window items (fun _ _ => true) in
  loadFromStorage h (js "flag") false = Normal true /\
  loadFromStorage h (js "junk") false = Normal false /\
  loadFromStorage h (js "none") false = Normal false /\
  loadFromStorage NoAccess (js "flag") false = Normal false.
Proof.
  cbv zeta.
  set (items := <[js "flag" := js "true"]> (<[js "junk" := js "{oops"]> ∅)
       : gmap (list N) (list N)).
  set (h := Window items (fun _ _ => true)).
  pose proof (loadFromStorage_value_or_default h (js "flag") false)
    as (_ & Hv & _).
  pose proof (loadFromStorage_value_or_default h (js "junk") false)
    as (_ & _ & _ & Hj & _).
  pose proof (loadFromStorage_value_or_default h (js "none") false)
    as (_ & _ & Hn & _).
  pose proof (loadFromStorage_value_or_default NoAccess (js "flag") false)
    as (_ & _ & _ & _ & Ha).
  split; [|split; [|split]].
  - apply (Hv items (fun _ _ => true) (js "true") true);
      [reflexivity | vm_compute; reflexivity | vm_compute; reflexivity].
  - apply (Hj items (fun _ _ => true) (js "{oops") SyntaxError);
      [reflexivity | vm_compute; reflexivity | vm_compute; reflexivity].
  - apply (Hn items (fun _ _ => true));
      [reflexivity | vm_compute; reflexivity].
  - apply Ha. now right.
Defined.

(** ** The readiness gate *)

Lemma loadsDone_app (tr es : list Action) :
  loadsDone tr -> loadsDone (tr ++ es).
Proof.
  unfold loadsDone. intros (H1 & H2 & H3 & H4).
  repeat split; apply in_or_app; now left.
Qed.

Lemma gated_snoc (tr : list Action) (e : Action) :
  gated tr ->
  (isSave e = true -> In Ready tr /\ loadsDone tr) ->
  gated (tr ++ [e]).
Proof.
  intros Hg He pre key value post Heq.
  induction post as [|x post' _] using rev_ind.
  - apply app_inj_tail in Heq as [-> ->]. now apply He.
  - change (pre ++ Save key value :: post' ++ [x])
      with (pre ++ (Save key value :: post') ++ [x]) in Heq.
    rewrite app_assoc in Heq.
    apply app_inj_tail in Heq as [-> _].
    eapply Hg. reflexivity.
Qed.

Lemma gated_app (tr es : list Action) :
  gated tr -> forallb (fun e => negb (isSave e)) es = true -> gated (tr ++ es).
Proof.
  revert tr. induction es as [|e es IH]; intros tr Hg Hes.
  - now rewrite app_nil_r.
  - cbn [forallb] in Hes. apply andb_true_iff in Hes as [He Hes].
    change (tr ++ e :: es) with (tr ++ [e] ++ es). rewrite app_assoc.
    apply IH; [|exact Hes].
    apply gated_snoc; [exact Hg|].
    intros Hs. rewrite Hs in He. discriminate.
Qed.

Section Gate.

Context `{JSON (list EgoEntry)} `{JSON (list TradeEntry)}
        `{JSON (list DrillEntry)} `{JSON Settings}.

Variable h0 : Host.

Lemma Inv_start : Inv h0 (start h0).
Proof.
  split; cbn.
  - intros pre key value post Heq. now destruct pre.
  - auto.
  - discriminate.
  - congruence.
Qed.

Lemma save_model {T} `{JSON T} (key : jsstring) (value : T) (a : App) :
  model (save key value a) = model a /\
  frame (save key value a) = frame a /\
  mounted (save key value a) = mounted a.
Proof.
  unfold save. destruct (loaded (model a)); [|auto].
  destruct (saveToStorage (host a) key value). auto.
Qed.

Lemma Inv_save {T} `{JSON T} (key : jsstring) (value : T) (a : App) :
  Inv h0 a -> Inv h0 (save key value a).
Proof.
  intros Ha. unfold save.
  destruct (loaded (model a)) eqn:Hl; [|exact Ha].
  destruct (saveToStorage (host a) key value) as [h errors].
  destruct Ha as [Hg Hu Hr Hf].
  destruct (Hr Hl) as [Hready Hloads].
  split; cbn.
  - apply gated_snoc; auto.
  - rewrite Hl. discriminate.
  - intros _. split; [apply in_or_app; now left | now apply loadsDone_app].
  - intros _. now apply loadsDone_app.
Qed.

Lemma Inv_saveEffects (a : App) : Inv h0 a -> Inv h0 (saveEffects a).
Proof.
  intros Ha. unfold saveEffects, saveSettings, saveDrills, saveTrades, saveEgo.
  now repeat apply Inv_save.
Qed.

Lemma Inv_withModel (m : Model) (a : App) :
  loaded m = loaded (model a) -> Inv h0 a -> Inv h0 (withModel m a).
Proof.
  intros Hl [Hg Hu Hr Hf]. split; cbn; rewrite ?Hl; auto.
Qed.

Lemma Inv_mountEffect (a : App) : Inv h0 a -> Inv h0 (mountEffect a).
Proof.
  intros [Hg Hu Hr Hf]. unfold mountEffect.
  destruct (loadAll (host a)) as [snapshot|e]; split; cbn; auto.
  - apply gated_app; auto.
  - intros Hl. destruct (Hu Hl) as [Hh Hs]. split; [exact Hh|].
    rewrite forallb_app, Hs. reflexivity.
  - intros Hl. destruct (Hr Hl) as [Hready Hloads].
    split; [apply in_or_app; now left | now apply loadsDone_app].
  - intros _. unfold loadsDone.
    repeat split; apply in_or_app; right; cbn; auto.
Qed.

Lemma Inv_applySnapshot (s : Snapshot) (a : App) :
  frame a = Some s -> Inv h0 a -> Inv h0 (applySnapshot s a).
Proof.
  intros Hs [Hg Hu Hr Hf].
  assert (Hloads : loadsDone (trace a)) by (apply Hf; congruence).
  split; cbn.
  - apply gated_snoc; auto. discriminate.
  - discriminate.
  - intros _. split; [apply in_or_app; right; now left|].
    now apply loadsDone_app.
  - congruence.
Qed.

Lemma Inv_step (i : Input) (a : App) : Inv h0 a -> Inv h0 (step i a).
Proof.
  intros Ha. destruct i; cbn [step].
  - destruct (mounted a); [exact Ha|].
    now apply Inv_saveEffects, Inv_mountEffect.
  - destruct (frame a) as [s|] eqn:Hs; [|exact Ha].
    now apply Inv_saveEffects, Inv_applySnapshot.
  - destruct (mounted a); [|exact Ha]. now apply Inv_withModel.
  - destruct (loaded (model a)); [|exact Ha].
    apply Inv_save. now apply Inv_withModel.
  - destruct (loaded (model a)); [|exact Ha].
    apply Inv_save. now apply Inv_withModel.
  - destruct (loaded (model a)); [|exact Ha].
    apply Inv_save. now apply Inv_withModel.
  - destruct (loaded (model a)); [|exact Ha].
    apply Inv_save. now apply Inv_withModel.
  - destruct (loaded (model a)); [|exact Ha].
    do 3 apply Inv_save. now apply Inv_withModel.
Qed.

Lemma Inv_run (inputs : list Input) (a : App) : Inv h0 a -> Inv h0 (run inputs a).
Proof.
  revert a. induction inputs as [|i inputs IH]; intros a Ha; [exact Ha|].
  cbn [run fold_left]. apply IH. now apply Inv_step.
Qed.

End Gate.

(** C6: in every execution of the component, from any host and for any
    sequence of inputs, each call of saveToStorage in the log comes after
    the four initial loads and after the store was marked ready; as long as
    the store is not ready nothing has been saved and the host storage is
    the one found at start. *)
Theorem no_save_before_ready
  `{JSON (list EgoEntry)} `{JSON (list TradeEntry)}
  `{JSON (list DrillEntry)} `{JSON Settings}
  (h0 : Host) (inputs : list Input) :
  let a := run inputs (start h0) in
  (forall pre key value post,
      trace a = pre ++ Save key value :: post ->
      In Ready pre /\ loadsDone pre) /\
  (loaded (model a) = false ->
   host a = h0 /\ forall key value, ~ In (Save key value) (trace a)).
Proof.
  cbv zeta.
  destruct (Inv_run h0 inputs (start h0) (Inv_start h0)) as [Hg Hu _ _].
  split; [exact Hg|].
  intros Hl. destruct (Hu Hl) as [Hh Hs]. split; [exact Hh|].
  intros key value Hin.
  rewrite forallb_forall in Hs. specialize (Hs _ Hin). discriminate.
Qed.

(** The gate at work: the first render runs the four save effects, none of
    which writes; the animation frame marks the store ready and the four
    saves follow; a later addition saves its own collection only. *)
Lemma startup_trace
  `{JSON (list EgoEntry)} `{JSON (list TradeEntry)}
  `{JSON (list DrillEntry)} `{JSON Settings} (entry : EgoEntry) :
  let h := Window ∅ (fun _ _ => true) in
  trace (run [Mount] (start h))
  = [Load STORAGE_KEYS.egoEntries; Load STORAGE_KEYS.tradeEntries;
     Load STORAGE_KEYS.drillEntries; Load STORAGE_KEYS.settings] /\
  trace (run [Mount; AnimationFrame; AddEgo entry] (start h))
  = [Load STORAGE_KEYS.egoEntries; Load STORAGE_KEYS.tradeEntries;
     Load STORAGE_KEYS.drillEntries; Load STORAGE_KEYS.settings;
     Ready;
     Save STORAGE_KEYS.egoEntries (stringify (@nil EgoEntry));
     Save STORAGE_KEYS.tradeEntries (stringify (@nil TradeEntry));
     Save STORAGE_KEYS.drillEntries (stringify (@nil DrillEntry));
     Save STORAGE_KEYS.settings (stringify defaultSettings);
     Save STORAGE_KEYS.egoEntries (stringify [entry])].
Proof. split; reflexivity. Qed.

Lemma save_other_key {T} `{JSON T} (key : jsstring) (value : T) (a : App)
  (k : jsstring) :
  k <> key ->
  stored (host (save key value a)) !! k = stored (host a) !! k.
Proof.
  intros Hk. unfold save. destruct (loaded (model a)); [|reflexivity].
  unfold saveToStorage, setItem.
  destruct (host a) as [| |items accepts]; try reflexivity.
  cbn [window_defined negb].
  destruct (accepts key (stringify value)); [|reflexivity].
  cbn [host stored]. apply lookup_insert_ne. congruence.
Qed.

Lemma keys_distinct :
  STORAGE_KEYS.settings <> STORAGE_KEYS.egoEntries /\
  STORAGE_KEYS.settings <> STORAGE_KEYS.tradeEntries /\
  STORAGE_KEYS.settings <> STORAGE_KEYS.drillEntries.
Proof. repeat split; intros Heq; vm_compute in Heq; discriminate. Qed.

(** Reset through the component: the collections are emptied, the settings
    in memory and the item stored under the settings key are untouched. *)
Lemma step_Reset
  `{JSON (list EgoEntry)} `{JSON (list TradeEntry)}
  `{JSON (list DrillEntry)} `{JSON Settings} (a : App) :
  loaded (model a) = true ->
  let a' := step Reset a in
  egoEntries (model a') = [] /\
  tradeEntries (model a') = [] /\
  drillEntries (model a') = [] /\
  settings (model a') = settings (model a) /\
  stored (host a') !! STORAGE_KEYS.settings
  = stored (host a) !! STORAGE_KEYS.settings.
Proof.
  intros Hl. cbn [step]. rewrite Hl. cbv zeta.
  destruct keys_distinct as (Ke & Kt & Kd).
  unfold saveDrills, saveTrades, saveEgo.
  repeat match goal with
         | |- context [model (save ?k ?v ?x)] =>
             rewrite (proj1 (save_model k v x))
         end.
  rewrite !save_other_key by assumption.
  repeat split.
Qed.

(** ** Win rate *)

Lemma num_eqb_eq (a b : number) : num_eqb a b = true -> a =n= b.
Proof.
  destruct a, b; simpl; try discriminate; auto.
  apply Qeq_bool_eq.
Qed.

Lemma forWins_true (check : Z -> Z -> bool) (total : Z) :
  forall n from,
    forWins check n from total = true ->
    forall w, from <= w <= from + Z.of_nat n -> check w total = true.
Proof.
  induction n as [|k IH]; intros from Hc w Hw; cbn [forWins] in Hc;
    apply andb_true_iff in Hc as [Hhere Hrest].
  - replace w with from by lia. exact Hhere.
  - destruct (Z.eq_dec w from) as [-> | Hne]; [exact Hhere|].
    apply (IH (from + 1) Hrest). lia.
Qed.

Lemma forTotals_true (check : Z -> Z -> bool) :
  forall n from,
    0 <= from ->
    forTotals check n from = true ->
    forall t w, from <= t < from + Z.of_nat n -> 0 <= w <= t ->
                check w t = true.
Proof.
  induction n as [|k IH]; intros from Hfrom Hc t w Ht Hw; [lia|].
  cbn [forTotals] in Hc. apply andb_true_iff in Hc as [Hhere Hrest].
  destruct (Z.eq_dec t from) as [-> | Hne].
  - apply (forWins_true check from _ 0 Hhere). rewrite Z2Nat.id; lia.
  - apply (IH (from + 1)); [lia | exact Hrest | lia | exact Hw].
Qed.

Lemma winRate_counts (l : list TradeEntry) :
  winRate l
  = if (0 <? length l)%nat
    then ES.round (F64.to_number
                     (percent64 (Z.of_nat (length (List.filter isWin l)))
                                (Z.of_nat (length l))))
    else num 0.
Proof. reflexivity. Qed.

Lemma wins_le_length (l : list TradeEntry) :
  (length (List.filter isWin l) <= length l)%nat.
Proof.
  induction l as [|t l IH]; cbn [List.filter length]; [lia|].
  destruct (isWin t); cbn [length]; lia.
Qed.

Lemma agrees_below_40 : forTotals agrees 39 1 = true.
Proof. vm_compute. reflexivity. Qed.

Lemma agreesOrHalf_upto_200 : forTotals agreesOrHalf 200 1 = true.
Proof. vm_compute. reflexivity. Qed.

(** C9 (as stated, it fails): over forty trades of which 23 are wins the
    exact percentage is 57.5, which rounds half up to 58; the binary64
    product (23 / 40) * 100 is just below 57.5 and the win rate is 57. *)
Lemma winRate_23_of_40 :
  length fortyTrades = 40%nat /\
  length (List.filter isWin fortyTrades) = 23%nat /\
  (exactPercent 23 40 == 115 # 2)%Q /\
  Num.ltb (F64.to_number (percent64 23 40)) (Fin (115 # 2)) = true /\
  exactWinRate fortyTrades = num 58 /\
  winRate fortyTrades = num 57 /\
  ~ winRate fortyTrades =n= exactWinRate fortyTrades.
Proof.
  repeat split; try reflexivity.
  vm_compute. discriminate.
Qed.

(** C9 (amended): the win rate is Math.round of the binary64 value of
    (wins / total) * 100, and 0 for the empty list.  For every list of
    fewer than 40 trades it equals the exact percentage 100 * wins / total
    rounded to the nearest integer with halves rounded up; for every list of
    up to 200 trades it equals that value unless the exact percentage is
    halfway between two integers, where it may be one less.  Over the three
    trades WIN, WIN, LOSS it is 67. *)
Theorem winRate_round_half_up_below_40 (l : list TradeEntry) :
  winRate [] = num 0 /\
  ((length l < 40)%nat -> winRate l =n= exactWinRate l) /\
  ((length l <= 200)%nat ->
   winRate l =n= exactWinRate l \/
   (halfway (exactPercent (Z.of_nat (length (List.filter isWin l)))
                          (Z.of_nat (length l))) = true /\
    winRate l =n= Num.sub (exactWinRate l) (num 1))) /\
  winRate [tradeOf WIN 10; tradeOf WIN 5; tradeOf LOSS (-5)] = num 67.
Proof.
  split; [reflexivity|]. split; [|split; [|reflexivity]].
  - intros Hlen. rewrite winRate_counts. unfold exactWinRate.
    destruct (0 <? length l)%nat eqn:Hpos; [|apply num_eq_refl].
    apply Nat.ltb_lt in Hpos. pose proof (wins_le_length l) as Hw.
    apply num_eqb_eq.
    apply (forTotals_true agrees 39 1 ltac:(lia) agrees_below_40); lia.
  - intros Hlen. rewrite winRate_counts. unfold exactWinRate.
    destruct (0 <? length l)%nat eqn:Hpos; [|left; apply num_eq_refl].
    apply Nat.ltb_lt in Hpos. pose proof (wins_le_length l) as Hw.
    assert (Hc : agreesOrHalf (Z.of_nat (length (List.filter isWin l)))
                              (Z.of_nat (length l)) = true).
    { apply (forTotals_true agreesOrHalf 200 1 ltac:(lia) agreesOrHalf_upto_200);
        lia. }
    unfold agreesOrHalf in Hc.
    destruct (agrees _ _) eqn:Ha; [left; now apply num_eqb_eq|].
    destruct (halfway _) eqn:Hh; [|discriminate].
    right. split; [reflexivity | now apply num_eqb_eq].
Qed.

Lemma winRate_round_half_up_below_40_witness :
  winRate [tradeOf WIN 10; tradeOf LOSS (-5); tradeOf BREAKEVEN 0]
  =n= exactWinRate [tradeOf WIN 10; tradeOf LOSS (-5); tradeOf BREAKEVEN 0] /\
  (winRate fortyTrades =n= exactWinRate fortyTrades \/
   (halfway (exactPercent 23 40) = true /\
    winRate fortyTrades =n= Num.sub (exactWinRate fortyTrades) (num 1))).
Proof.
  split.
  - apply (winRate_round_half_up_below_40
             [tradeOf WIN 10; tradeOf LOSS (-5); tradeOf BREAKEVEN 0]).
    cbn. lia.
  - apply (winRate_round_half_up_below_40 fortyTrades).
    cbn. lia.
Defined.

(** * Further properties *)

(** ** Colour and label *)

(** X1: for every number, NaN and fractions included, getEgoLabel and
    getEgoColor pick the same row of the label reference: the label and the
    colour of a score never disagree, and every number gets one of the
    seven tiers. *)
Theorem getEgoColor_matches_getEgoLabel (score : number) :
  exists i, (i < 7)%nat /\
    egoTiers !! i = Some (getEgoLabel score) /\
    egoColors !! i = Some (getEgoColor score).
Proof.
  unfold getEgoLabel, getEgoColor.
  destruct (Num.leb score (num 20)); [exists 0%nat; repeat split; lia|].
  destruct (Num.leb score (num 40)); [exists 1%nat; repeat split; lia|].
  destruct (Num.leb score (num 55)); [exists 2%nat; repeat split; lia|].
  destruct (Num.leb score (num 70)); [exists 3%nat; repeat split; lia|].
  destruct (Num.leb score (num 85)); [exists 4%nat; repeat split; lia|].
  destruct (Num.leb score (num 95)); [exists 5%nat; repeat split; lia|].
  exists 6%nat; repeat split; lia.
Qed.

(** ** Latest entry and trend *)

Lemma latestEgo_snoc (l : list EgoEntry) (e : EgoEntry) :
  latestEgo (l ++ [e]) = Some e.
Proof.
  unfold latestEgo. rewrite length_app. cbn [length].
  replace (0 <? length l + 1)%nat with true by (symmetry; apply Nat.ltb_lt; lia).
  replace (length l + 1 - 1)%nat with (length l + 0)%nat by lia.
  now rewrite lookup_app_r, Nat.add_0_r, Nat.sub_diag by lia.
Qed.

Lemma previousEgo_snoc (l : list EgoEntry) (e : EgoEntry) :
  previousEgo (l ++ [e]) = latestEgo l.
Proof.
  unfold previousEgo, latestEgo. rewrite length_app. cbn [length].
  destruct l as [|x l]; [reflexivity|].
  cbn [length].
  replace (1 <? S (length l) + 1)%nat with true by (symmetry; apply Nat.ltb_lt; lia).
  replace (0 <? S (length l))%nat with true by (symmetry; apply Nat.ltb_lt; lia).
  replace (S (length l) + 1 - 2)%nat with (S (length l) - 1)%nat by lia.
  apply lookup_app_l. cbn [length]. lia.
Qed.

(** X2: the trend is the score of the newest entry minus the score of the
    entry before it, whatever came earlier, and 0 when there are fewer than
    two entries. *)
Theorem egoTrend_last_two (l : list EgoEntry) (a b : EgoEntry) :
  egoTrend (l ++ [a; b]) = Num.sub (score b) (score a) /\
  egoTrend [a] = num 0 /\
  egoTrend [] = num 0.
Proof.
  split; [|split; reflexivity].
  unfold egoTrend.
  change (l ++ [a; b]) with (l ++ [a] ++ [b]). rewrite app_assoc.
  now rewrite latestEgo_snoc, previousEgo_snoc, latestEgo_snoc.
Qed.

(** ** Counts on the Stats page *)

(** X3: every drill is counted in exactly one category: the four category
    counts add up to the number of drills. *)
Theorem categoryStats_total (drillEntries : list DrillEntry) :
  let c := categoryStats drillEntries in
  (statsTRADING c + statsFITNESS c + statsSKILL c + statsMINDSET c
   = length drillEntries)%nat.
Proof.
  cbv zeta. unfold categoryStats.
  cbn [statsTRADING statsFITNESS statsSKILL statsMINDSET].
  induction drillEntries as [|d l IH]; [reflexivity|].
  cbn [List.filter].
  destruct (isCategory TRADING d) eqn:H1, (isCategory FITNESS d) eqn:H2,
           (isCategory SKILL d) eqn:H3, (isCategory MINDSET d) eqn:H4;
    unfold isCategory in H1, H2, H3, H4;
    destruct (category d); try discriminate; cbn [length]; lia.
Qed.

(** X4: wins, losses and breakeven trades partition the trades: the three
    counts add up to the number of trades, so wins plus losses never exceed
    it. *)
Theorem wins_losses_breakeven_total (tradeEntries : list TradeEntry) :
  (Stats.wins tradeEntries + Stats.losses tradeEntries
   + length (List.filter isBreakeven tradeEntries)
   = length tradeEntries)%nat /\
  (Stats.wins tradeEntries + Stats.losses tradeEntries
   <= length tradeEntries)%nat.
Proof.
  assert (H : (Stats.wins tradeEntries + Stats.losses tradeEntries
               + length (List.filter isBreakeven tradeEntries)
               = length tradeEntries)%nat).
  { unfold Stats.wins, Stats.losses.
    induction tradeEntries as [|t l IH]; [reflexivity|].
    cbn [List.filter].
    destruct (isWin t) eqn:Hw, (isLoss t) eqn:Hl, (isBreakeven t) eqn:Hb;
      unfold isWin, isLoss, isBreakeven in Hw, Hl, Hb;
      destruct (result t); try discriminate; cbn [length]; lia. }
  split; [exact H | lia].
Qed.

(** ** Average loss is a magnitude *)

Lemma abs_not_negative (a : number) : Num.ltb (Num.abs a) (num 0) = false.
Proof.
  destruct a as [| |q|]; try reflexivity.
  cbn. apply Qltb_ge. apply Qabs_nonneg.
Qed.

(** X5: the average loss is never negative (the page prints it after a
    minus sign): for every list of trades it is not below 0. *)
Theorem avgLoss_not_negative (tradeEntries : list TradeEntry) :
  Num.ltb (Stats.avgLoss tradeEntries) (num 0) = false.
Proof.
  unfold Stats.avgLoss.
  destruct (0 <? Stats.losses tradeEntries)%nat; [|reflexivity].
  apply abs_not_negative.
Qed.

(** ** Average ego *)

Lemma inject_Z_succ_nat (k : nat) :
  (inject_Z (Z.of_nat (S k)) == inject_Z (Z.of_nat k) + 1)%Q.
Proof. rewrite Nat2Z.inj_succ. unfold Z.succ. now rewrite inject_Z_plus. Qed.

Lemma sum_scores_bounds (lo hi : Q) (l : list EgoEntry) :
  Forall (fun e => exists q, score e = Fin q /\ (lo <= q <= hi)%Q) l ->
  forall acc, exists total,
    fold_left (fun s e => Num.add s (score e)) l (Fin acc) = Fin total /\
    (acc + inject_Z (Z.of_nat (length l)) * lo <= total
     <= acc + inject_Z (Z.of_nat (length l)) * hi)%Q.
Proof.
  induction 1 as [|e l (q & Hq & Hlo & Hhi) _ IH]; intros acc.
  - exists acc. split; [reflexivity|]. cbn [length].
    change (inject_Z (Z.of_nat 0)) with 0%Q. lra.
  - cbn [fold_left]. rewrite Hq. cbn [Num.add].
    destruct (IH (acc + q)%Q) as (total & Heq & Hl & Hh).
    exists total. split; [exact Heq|].
    cbn [length]. rewrite inject_Z_succ_nat.
    set (k := inject_Z (Z.of_nat (length l))) in *. clearbody k.
    split; nra.
Qed.

Lemma Qfloor_half_between (x : Q) (lo hi : Z) :
  (inject_Z lo <= x <= inject_Z hi)%Q ->
  lo <= Qfloor (x + (1 # 2)) <= hi.
Proof.
  intros [Hlo Hhi]. split.
  - rewrite <- (Qfloor_Z lo). apply Qfloor_resp_le. lra.
  - destruct (Z_le_gt_dec (Qfloor (x + (1 # 2))) hi) as [Hle | Hgt]; [exact Hle|].
    exfalso.
    assert (H1 : (hi + 1 <= Qfloor (x + (1 # 2)))%Z) by lia.
    rewrite Zle_Qle, inject_Z_plus in H1.
    pose proof (Qfloor_le (x + (1 # 2))) as H2.
    change (inject_Z 1) with 1%Q in H1. lra.
Qed.

Lemma avgEgo_between (l : list EgoEntry) (lo hi : Z) :
  l <> [] ->
  Forall (fun e => exists q, score e = Fin q /\
                             (inject_Z lo <= q <= inject_Z hi)%Q) l ->
  exists z, avgEgo l = num z /\ lo <= z <= hi.
Proof.
  intros Hne Hall.
  unfold avgEgo.
  destruct l as [|e0 l0]; [congruence|].
  set (l := e0 :: l0) in *.
  replace (0 <? length l)%nat with true by reflexivity.
  destruct (sum_scores_bounds _ _ l Hall 0) as (total & Heq & Hl & Hh).
  change (num 0) with (Fin 0). rewrite Heq.
  assert (Hn : (0 < inject_Z (Z.of_nat (length l)))%Q).
  { change 0%Q with (inject_Z 0). rewrite <- Zlt_Qlt. subst l. cbn [length]. lia. }
  set (n := inject_Z (Z.of_nat (length l))) in *.
  unfold num at 1. cbn [Num.div].
  replace (Qeq_bool n 0) with false
    by (symmetry; apply not_true_is_false; intros H; apply Qeq_bool_iff in H; lra).
  cbn [ES.round]. eexists. split; [reflexivity|].
  apply Qfloor_half_between. split.
  - apply Qle_shift_div_l; [exact Hn|]. fold n. clearbody n. nra.
  - apply Qle_shift_div_r; [exact Hn|]. fold n. clearbody n. nra.
Qed.

(** X6: the average ego lies within the scores: when every score of a
    non-empty list of at most 2^32 entries is an integer between the
    integers lo and hi, themselves of magnitude at most 2^21, the average
    ego is an integer between lo and hi (so between 0 and 100 for scores
    from the slider); it is 0 for the empty list.  (Within these bounds
    every partial sum of line 811 is an integer of magnitude at most 2^53,
    which binary64 adds without error.) *)
Theorem avgEgo_within_scores (l : list EgoEntry) (lo hi : Z)
  (Hne : l <> [])
  (Hlen : Z.of_nat (length l) <= 2 ^ 32)
  (Hlo : - 2 ^ 21 <= lo)
  (Hhi : hi <= 2 ^ 21)
  (Hall : Forall (fun e => exists z, score e = num z /\ lo <= z <= hi) l) :
  (exists z, avgEgo l = num z /\ lo <= z <= hi) /\ avgEgo [] = num 0.
Proof.
  split; [|reflexivity].
  apply avgEgo_between; [exact Hne|].
  eapply Forall_impl; [exact Hall|].
  intros e (z & Hz & Hl & Hh). exists (inject_Z z).
  split; [exact Hz|]. rewrite <- !Zle_Qle. lia.
Qed.

Lemma avgEgo_within_scores_witness :
  exists z, avgEgo [mkEgo [] [] (num 40) [] []; mkEgo [] [] (num 95) [] []]
            = num z /\ 0 <= z <= 100.
Proof.
  apply (avgEgo_within_scores
           [mkEgo [] [] (num 40) [] []; mkEgo [] [] (num 95) [] []] 0 100).
  - discriminate.
  - vm_compute. discriminate.
  - lia.
  - lia.
  - repeat constructor; eexists; (split; [reflexivity|]); lia.
Defined.

(** ** Logging an ego entry *)

Lemma egoTrend_snoc (l : list EgoEntry) (e : EgoEntry) :
  egoTrend (l ++ [e])
  = match latestEgo l with
    | Some previous => Num.sub (score e) (score previous)
    | None => num 0
    end.
Proof.
  unfold egoTrend. now rewrite latestEgo_snoc, previousEgo_snoc.
Qed.

(** X7: submitting the ego form appends exactly one entry, whose stored
    label is the label of its score; if every stored label was the label of
    its score before, this still holds afterwards; the form returns to
    score 50 and empty notes, and trades, drills and settings are
    untouched.  Unlike the drills form there is no guard: empty notes are
    accepted. *)
Theorem EgoLog_handleSubmit_appends_labelled
  (env : Env) (f : EgoLog.Form) (m : Model) :
  let r := EgoLog.handleSubmit env onAddEgo f m in
  let e := EgoLog.newEntry env f in
  egoEntries (snd r) = egoEntries m ++ [e] /\
  score e = EgoLog.score f /\
  ego_notes e = EgoLog.notes f /\
  labelled e /\
  (Forall labelled (egoEntries m) -> Forall labelled (egoEntries (snd r))) /\
  fst r = EgoLog.mkForm (num 50) [] /\
  tradeEntries (snd r) = tradeEntries m /\
  drillEntries (snd r) = drillEntries m /\
  settings (snd r) = settings m.
Proof.
  cbv zeta. cbn. repeat split.
  intros Hall. apply Forall_app. split; [exact Hall|].
  constructor; [reflexivity | constructor].
Qed.

Lemma EgoLog_handleSubmit_appends_labelled_witness :
  Forall labelled
    (egoEntries (snd (EgoLog.handleSubmit sampleEnv onAddEgo
                        (EgoLog.mkForm (num 72) (js "scored twice"))
                        loadedModel))).
Proof.
  apply (EgoLog_handleSubmit_appends_labelled sampleEnv
           (EgoLog.mkForm (num 72) (js "scored twice")) loadedModel).
  constructor.
Defined.

(** X8: after an ego entry is logged, the dashboard shows it as the latest
    entry, and the trend is its score minus the score of the entry that was
    the latest before (0 when it is the first entry). *)
Theorem EgoLog_handleSubmit_latest_and_trend
  (env : Env) (f : EgoLog.Form) (m : Model) :
  let m' := snd (EgoLog.handleSubmit env onAddEgo f m) in
  latestEgo (egoEntries m') = Some (EgoLog.newEntry env f) /\
  previousEgo (egoEntries m') = latestEgo (egoEntries m) /\
  egoTrend (egoEntries m')
  = match latestEgo (egoEntries m) with
    | Some previous => Num.sub (EgoLog.score f) (score previous)
    | None => num 0
    end.
Proof.
  cbv zeta. cbn [EgoLog.handleSubmit snd onAddEgo setEgoEntries egoEntries].
  rewrite latestEgo_snoc, previousEgo_snoc, egoTrend_snoc.
  repeat split.
Qed.

(** ** History lists *)

Lemma head_rev_latest (l : list EgoEntry) : head (rev l) = latestEgo l.
Proof.
  induction l as [|x l _] using rev_ind; [reflexivity|].
  now rewrite rev_app_distr, latestEgo_snoc.
Qed.

(** X9: the ego history shows the newest entries first, at most seven of
    them: it is the last seven entries (all of them when there are fewer) in
    reverse order, and its first row is the entry the dashboard shows as
    latest.  The drill history does the same with ten entries, and the
    trade history shows every trade, newest first. *)
Theorem history_newest_first
  (egos : list EgoEntry) (drills : list DrillEntry) (trades : list TradeEntry) :
  recentEgoEntries egos = rev (drop (length egos - 7) egos) /\
  length (recentEgoEntries egos) = Nat.min 7 (length egos) /\
  head (recentEgoEntries egos) = latestEgo egos /\
  recentDrills drills = rev (drop (length drills - 10) drills) /\
  length (recentDrills drills) = Nat.min 10 (length drills) /\
  length (tradeHistory trades) = length trades /\
  (forall i, (i < length trades)%nat ->
             tradeHistory trades !! i = trades !! (length trades - 1 - i)%nat).
Proof.
  unfold recentEgoEntries, recentDrills, tradeHistory.
  split; [apply firstn_rev|].
  split; [now rewrite length_take, length_rev|].
  split.
  { rewrite <- head_rev_latest. destruct (rev egos); reflexivity. }
  split; [apply firstn_rev|].
  split; [now rewrite length_take, length_rev|].
  split; [apply length_rev|].
  intros i Hi.
  replace (length trades - 1 - i)%nat with (length trades - S i)%nat by lia.
  rewrite rev_alt. change (rev_append trades []) with (reverse trades).
  now apply reverse_lookup.
Qed.

(** ** The intensity bar *)

Lemma concat_repeat_singleton (c : N) (n : nat) :
  List.concat (repeat [c] n) = repeat c n.
Proof. induction n as [|n IH]; [reflexivity|]. cbn. now rewrite IH. Qed.

Lemma String_repeat_integer (c : N) (i : Z) :
  String_repeat [c] (num i)
  = if i <? 0 then None else Some (repeat c (Z.to_nat i)).
Proof.
  unfold String_repeat, toIntegerOrInfinity, num at 1.
  cbn [inject_Z Qnum Qden]. rewrite Z.quot_1_r. unfold num.
  change 0%Q with (inject_Z 0).
  replace (Qltb (inject_Z i) (inject_Z 0)) with (i <? 0).
  - destruct (i <? 0); [reflexivity|].
    now rewrite Qfloor_Z, concat_repeat_singleton.
  - destruct (Z.ltb_spec i 0) as [Hlt | Hge]; symmetry.
    + apply Qltb_lt. now rewrite <- Zlt_Qlt.
    + apply Qltb_ge. now rewrite <- Zle_Qle.
Qed.

Lemma String_repeat_difference (c : N) (a b : Z) :
  String_repeat [c] (Num.sub (num a) (num b)) = String_repeat [c] (num (a - b)).
Proof.
  unfold String_repeat, toIntegerOrInfinity, Num.sub, num.
  cbn [Num.neg Num.add inject_Z Qplus Qopp Qnum Qden].
  rewrite !Z.quot_1_r.
  now replace (a * 1 + - b * 1) with (a - b) by lia.
Qed.

Lemma intensityBar_integer (i : Z) :
  intensityBar (num i)
  = if (0 <=? i) && (i <=? 10)
    then Some (repeat 9608%N (Z.to_nat i) ++ repeat 9617%N (Z.to_nat (10 - i)))
    else None.
Proof.
  unfold intensityBar.
  rewrite String_repeat_difference, !String_repeat_integer.
  destruct (Z.ltb_spec i 0), (Z.ltb_spec (10 - i) 0),
           (Z.leb_spec 0 i), (Z.leb_spec i 10);
    cbn [andb]; try reflexivity; lia.
Qed.

(** X10: the intensity bar of a drill whose intensity is an integer from 0
    to 10 has exactly ten cells, as many full ones as the intensity; for an
    integer intensity below 0 or above 10 one of the two repeat calls gets a
    negative count and throws a RangeError, so the bar (and with it the
    drills page) fails to render. *)
Theorem intensityBar_ten_cells_or_RangeError (i : Z) :
  intensityBar (num i)
  = (if (0 <=? i) && (i <=? 10)
     then Some (repeat 9608%N (Z.to_nat i) ++ repeat 9617%N (Z.to_nat (10 - i)))
     else None) /\
  forall bar, intensityBar (num i) = Some bar -> length bar = 10%nat.
Proof.
  split; [apply intensityBar_integer|].
  intros bar. rewrite intensityBar_integer.
  destruct (Z.leb_spec 0 i), (Z.leb_spec i 10); cbn [andb]; try discriminate.
  intros [= <-]. rewrite length_app, !repeat_length. lia.
Qed.

(** ** Editing the settings *)

Lemma or_not_NaN (a b : number) : b <> NaN -> Num.or a b <> NaN.
Proof.
  unfold Num.or. destruct a; cbn; try congruence.
  destruct (negb (Qeq_bool q 0)); congruence.
Qed.

Lemma trimStart_length (s : jsstring) :
  (length (ES.trimStart s) <= length s)%nat.
Proof.
  induction s as [|c s IH]; [reflexivity|].
  cbn [ES.trimStart]. destruct (ES.isWhiteSpace c); cbn [length]; lia.
Qed.

Lemma signOf_length (s : jsstring) :
  (length (snd (ES.signOf s)) <= length s)%nat /\
  (fst (ES.signOf s) = 1 \/ fst (ES.signOf s) = -1).
Proof.
  destruct s as [|c s]; [cbn; auto|].
  unfold ES.signOf.
  destruct c as [|p]; [cbn; auto|].
  do 6 (destruct p as [p|p|]; try (cbn [fst snd length]; split; [lia | auto])).
Qed.

(** The radix prefix: either there is none and the radix is 10, or two code
    units are consumed and the radix is 16. *)
Lemma radix_prefix (u : jsstring) :
  let r := match u with
           | 48%N :: 120%N :: rest | 48%N :: 88%N :: rest => (16%N, rest)
           | _ => (10%N, u)
           end in
  (fst r = 10%N /\ snd r = u) \/
  (fst r = 16%N /\ (length (snd r) + 2 <= length u)%nat).
Proof.
  cbv zeta.
  destruct u as [|a l]; [left; split; reflexivity|].
  destruct a as [|p]; [left; split; reflexivity|].
  do 6 (destruct p as [p|p|]; try (left; split; reflexivity)).
  destruct l as [|b rest]; [left; split; reflexivity|].
  destruct b as [|q]; [left; split; reflexivity|].
  do 7 (destruct q as [q|q|]; try (left; split; reflexivity));
    right; cbn [fst snd length]; (split; [reflexivity | lia]).
Qed.

Lemma digit_lt (radix c d : N) :
  radix = 10%N \/ radix = 16%N ->
  ES.digit radix c = Some d -> (d < radix)%N.
Proof.
  intros Hr. unfold ES.digit.
  destruct ((48 <=? c) && (c <=? 57))%N eqn:H1.
  - intros [= <-]. apply andb_true_iff in H1 as [H1 H2].
    apply N.leb_le in H1, H2. destruct Hr; subst; lia.
  - destruct (radix =? 16)%N eqn:Hx; [|discriminate].
    apply N.eqb_eq in Hx. subst radix.
    destruct ((97 <=? c) && (c <=? 102))%N eqn:H2.
    + intros [= <-]. apply andb_true_iff in H2 as [H2 H3].
      apply N.leb_le in H2, H3. lia.
    + destruct ((65 <=? c) && (c <=? 70))%N eqn:H3; [|discriminate].
      intros [= <-]. apply andb_true_iff in H3 as [H3 H4].
      apply N.leb_le in H3, H4. lia.
Qed.

Lemma digits_length (radix : N) (s : jsstring) :
  radix = 10%N \/ radix = 16%N ->
  (length (fst (ES.digits radix s)) <= length s)%nat /\
  Forall (fun d => (d < radix)%N) (fst (ES.digits radix s)).
Proof.
  intros Hr. induction s as [|c s [IHl IHd]]; [split; [reflexivity | constructor]|].
  cbn [ES.digits].
  destruct (ES.digit radix c) as [d|] eqn:Hd.
  - destruct (ES.digits radix s) as [ds r]. cbn [fst length] in *.
    split; [lia|]. constructor; [exact (digit_lt radix c d Hr Hd) | exact IHd].
  - cbn [fst length]. split; [lia | constructor].
Qed.

(** A run of n digits in radix r denotes a number below r^n. *)
Lemma value_below_power (radix : N) (ds : list N) :
  Forall (fun d => (d < radix)%N) ds ->
  forall acc, 0 <= acc ->
  0 <= fold_left (fun acc d => acc * Z.of_N radix + Z.of_N d) ds acc
    < (acc + 1) * Z.of_N radix ^ Z.of_nat (length ds).
Proof.
  induction 1 as [|d ds Hd _ IH]; intros acc Hacc.
  - cbn. lia.
  - cbn [fold_left length]. rewrite Nat2Z.inj_succ, Z.pow_succ_r by lia.
    assert (Hr : Z.of_N d + 1 <= Z.of_N radix) by lia.
    assert (Hp : 0 < Z.of_N radix ^ Z.of_nat (length ds))
      by (apply Z.pow_pos_nonneg; lia).
    specialize (IH (acc * Z.of_N radix + Z.of_N d) ltac:(nia)).
    set (P := Z.of_N radix ^ Z.of_nat (length ds)) in *. clearbody P.
    split; [lia | nia].
Qed.

(** On an input of at most 15 code units parseInt sees at most 15 decimal or
    13 hexadecimal digits: the integer it returns is below 2^53 in
    magnitude, hence a binary64 number without rounding. *)
Lemma parseInt_short (s : jsstring) :
  (length s <= 15)%nat ->
  ES.parseInt s = NaN \/
  exists z, ES.parseInt s = num z /\ Z.abs z < 2 ^ 53.
Proof.
  intros Hlen. unfold ES.parseInt.
  pose proof (trimStart_length s) as Ht.
  pose proof (signOf_length (ES.trimStart s)) as [Hs Hsign].
  destruct (ES.signOf (ES.trimStart s)) as [sign u]. cbn [fst snd] in Hs, Hsign.
  pose proof (radix_prefix u) as Hr. cbv zeta in Hr.
  destruct (match u with
            | 48%N :: 120%N :: rest | 48%N :: 88%N :: rest => (16%N, rest)
            | _ => (10%N, u)
            end) as [radix v].
  cbn [fst snd] in Hr.
  assert (Hrad : radix = 10%N \/ radix = 16%N) by (destruct Hr as [[? _] | [? _]]; auto).
  destruct (digits_length radix v Hrad) as [Hl Hd].
  destruct (fst (ES.digits radix v)) as [|d ds] eqn:Hds; [now left|].
  right. eexists. split; [reflexivity|].
  pose proof (value_below_power radix (d :: ds) Hd 0 ltac:(lia)) as [H0 H1].
  fold (ES.value radix (d :: ds)) in H0, H1.
  set (n := ES.value radix (d :: ds)) in *. clearbody n.
  set (k := length (d :: ds)) in *. clearbody k.
  assert (Hn : n < 2 ^ 53).
  { destruct Hr as [[-> ->] | [-> Hv]].
    - assert (Hk : Z.of_N 10 ^ Z.of_nat k <= 10 ^ 15)
        by (apply Z.pow_le_mono_r; lia).
      assert (10 ^ 15 < 2 ^ 53) by reflexivity. lia.
    - assert (Hk : Z.of_N 16 ^ Z.of_nat k <= 16 ^ 13)
        by (apply Z.pow_le_mono_r; lia).
      assert (16 ^ 13 < 2 ^ 53) by reflexivity. lia. }
  destruct Hsign as [-> | ->]; lia.
Qed.

Lemma or_zero_short (s : jsstring) :
  (length s <= 15)%nat ->
  exists z, Num.or (ES.parseInt s) (num 0) = num z /\ Z.abs z < 2 ^ 53.
Proof.
  intros Hlen.
  destruct (parseInt_short s Hlen) as [-> | (z & -> & Hz)].
  - exists 0. split; [reflexivity|]. reflexivity.
  - unfold Num.or. destruct (Num.truthy (num z)).
    + exists z. split; [reflexivity | exact Hz].
    + exists 0. split; reflexivity.
Qed.

(** X11: each field editor of the settings page replaces its own amount and
    leaves the three others as they were; the amount stored is never NaN,
    it is 0 when the input holds no digit, and for an input of at most 15
    characters it is an integer of magnitude below 2^53 (never a fraction:
    the decimals typed are dropped).  The collections are not touched. *)
Theorem settings_editors_store_integers
  (st : Settings) (value : jsstring) (m : Model) :
  let m1 := SettingsPage.onChangeStartingCapital onUpdate st value m in
  let m2 := SettingsPage.onChangeTargetCapital onUpdate st value m in
  let m3 := SettingsPage.onChangeWeeklyInjection onUpdate st value m in
  let m4 := SettingsPage.onChangeCurrentCapital onUpdate st value m in
  let v := Num.or (ES.parseInt value) (num 0) in
  v <> NaN /\
  ((length value <= 15)%nat -> exists z, v = num z /\ Z.abs z < 2 ^ 53) /\
  (digitless value = true -> v = num 0) /\
  settings m1 = mkSettings v (targetCapital st) (weeklyInjection st) (currentCapital st) /\
  settings m2 = mkSettings (startingCapital st) v (weeklyInjection st) (currentCapital st) /\
  settings m3 = mkSettings (startingCapital st) (targetCapital st) v (currentCapital st) /\
  settings m4 = mkSettings (startingCapital st) (targetCapital st) (weeklyInjection st) v /\
  Forall (fun m' => egoEntries m' = egoEntries m /\
                    tradeEntries m' = tradeEntries m /\
                    drillEntries m' = drillEntries m) [m1; m2; m3; m4].
Proof.
  cbv zeta. split; [apply or_not_NaN; discriminate|].
  split; [apply or_zero_short|].
  split; [intros Hd; now rewrite (parseInt_digitless value Hd)|].
  repeat split. repeat constructor.
Qed.

Lemma settings_editors_store_integers_witness :
  settings (SettingsPage.onChangeTargetCapital onUpdate defaultSettings
              (js "12500.75") loadedModel)
  = mkSettings (num 4705) (num 12500) (num 60) (num 4705) /\
  (exists z, Num.or (ES.parseInt (js "12500.75")) (num 0) = num z /\
             Z.abs z < 2 ^ 53) /\
  Num.or (ES.parseInt (js "n/a")) (num 0) = num 0.
Proof.
  pose proof (settings_editors_store_integers defaultSettings (js "12500.75")
                loadedModel) as (_ & Hz & _ & _ & H2 & _).
  pose proof (settings_editors_store_integers defaultSettings (js "n/a")
                loadedModel) as (_ & _ & H0 & _).
  split; [rewrite H2; reflexivity|].
  split; [apply Hz; vm_compute; lia | apply H0; reflexivity].
Defined.

(** ** Progress percent: range *)

Lemma clamped_or_NaN (x : number) :
  let r := Num.min (num 100) (Num.max (num 0) x) in
  r = NaN \/ (Num.leb (num 0) r = true /\ Num.leb r (num 100) = true).
Proof.
  cbv zeta. destruct x as [| |q|]; try (now left); try (right; split; reflexivity).
  right. unfold Num.max, Num.min, num.
  cbn [Num.is_nan orb Num.ltb].
  destruct (Qltb (inject_Z 0) q) eqn:H0; cbn [Num.is_nan orb Num.ltb].
  - destruct (Qltb q (inject_Z 100)) eqn:H1; cbn [Num.leb].
    + apply Qltb_lt in H0, H1. split; apply Qle_bool_iff; lra.
    + split; reflexivity.
  - split; reflexivity.
Qed.

(** X12: for every settings record, whatever the amounts (zero span,
    infinities, NaN), the progress percent is either NaN or a number from 0
    to 100: the width of the progress bar never leaves that range. *)
Theorem progressPercent_NaN_or_within_0_100 (st : Settings) :
  progressPercent st = NaN \/
  (Num.leb (num 0) (progressPercent st) = true /\
   Num.leb (progressPercent st) (num 100) = true).
Proof. unfold progressPercent. apply clamped_or_NaN. Qed.

Lemma Qcompare_difference (c s : Z) :
  ((inject_Z c + - inject_Z s) ?= 0)%Q = (c ?= s).
Proof.
  unfold Qcompare, inject_Z, Qplus, Qopp. cbn [Qnum Qden].
  rewrite !Z.mul_1_r. cbn [Z.mul].
  destruct (Z.compare_spec c s) as [-> | H | H].
  - apply Z.compare_eq_iff. lia.
  - apply Z.compare_lt_iff. lia.
  - apply Z.compare_gt_iff. lia.
Qed.

Lemma progressPercent_zero_span_integer (s w c : Z) :
  progressPercent (mkSettings (num s) (num s) (num w) (num c))
  = match c ?= s with
    | Eq => NaN
    | Lt => num 0
    | Gt => num 100
    end.
Proof.
  unfold progressPercent, num.
  cbn [currentCapital startingCapital targetCapital
       Num.sub Num.neg Num.add Num.div].
  replace (Qeq_bool (inject_Z s + - inject_Z s) 0) with true
    by (symmetry; apply Qeq_bool_iff; lra).
  rewrite Qcompare_difference.
  destruct (c ?= s); reflexivity.
Qed.

(** X13: with integer amounts of magnitude at most 2^52, as the settings
    page stores them for every input of up to 15 digits, the progress
    percent is NaN exactly when starting, target and current capital are
    all equal; when starting and target capital are equal and the current
    capital is below them it is 0, above them it is 100.  (Within the bound
    both differences of line 182 are integers that binary64 holds without
    rounding.) *)
Theorem progressPercent_integer_amounts (s t w c : Z)
  (Hs : Z.abs s <= 2 ^ 52)
  (Ht : Z.abs t <= 2 ^ 52)
  (Hc : Z.abs c <= 2 ^ 52) :
  let st := mkSettings (num s) (num t) (num w) (num c) in
  (progressPercent st = NaN <-> s = t /\ c = s) /\
  (s = t -> c < s -> progressPercent st = num 0) /\
  (s = t -> s < c -> progressPercent st = num 100).
Proof.
  clear Hs Ht Hc. cbv zeta.
  destruct (Z.eq_dec s t) as [<- | Hne].
  - rewrite progressPercent_zero_span_integer.
    destruct (Z.compare_spec c s) as [-> | Hlt | Hgt].
    + split; [split; [auto | reflexivity]|]. split; intros _ ?; lia.
    + split; [split; [discriminate | lia]|].
      split; [reflexivity | intros _ ?; lia].
    + split; [split; [discriminate | lia]|].
      split; [intros _ ?; lia | reflexivity].
  - split; [|split; intros ?; contradiction].
    split; [|intros [? _]; contradiction].
    assert (Hq : ~ (inject_Z s == inject_Z t)%Q).
    { intros Heq. apply Hne. now apply inject_Z_injective. }
    rewrite (progressPercent_finite
               (mkSettings (num s) (num t) (num w) (num c))
               (inject_Z c) (inject_Z s) (inject_Z t)
               eq_refl eq_refl eq_refl Hq).
    cbv zeta.
    repeat match goal with |- context [Qltb ?a ?b] => destruct (Qltb a b) end;
      discriminate.
Qed.

Lemma progressPercent_integer_amounts_witness :
  progressPercent (mkSettings (num 5000) (num 5000) (num 60) (num 4705)) = num 0 /\
  progressPercent (mkSettings (num 5000) (num 5000) (num 60) (num 5000)) = NaN.
Proof.
  assert (H5000 : Z.abs 5000 <= 2 ^ 52) by (vm_compute; discriminate).
  assert (H4705 : Z.abs 4705 <= 2 ^ 52) by (vm_compute; discriminate).
  split.
  - apply (progressPercent_integer_amounts 5000 5000 60 4705 H5000 H5000 H4705);
      [reflexivity | lia].
  - apply (progressPercent_integer_amounts 5000 5000 60 5000 H5000 H5000 H5000).
    split; reflexivity.
Defined.

(** ** Submitting twice *)

Lemma drill_submit_cases
  (env : Env) (f : WeaponDrills.Form) (m : Model) :
  (blank (WeaponDrills.weapon f) = true ->
   WeaponDrills.handleSubmit env onAddDrill f m = (f, m)) /\
  (blank (WeaponDrills.weapon f) = false ->
   WeaponDrills.handleSubmit env onAddDrill f m
   = (WeaponDrills.mkForm [] (num 5) (WeaponDrills.category f),
      onAddDrill
        (mkDrill (ES.toString (Date_now env)) (Date_toISOString env)
                 (WeaponDrills.weapon f) (WeaponDrills.intensity f)
                 (WeaponDrills.category f)) m)).
Proof.
  unfold WeaponDrills.handleSubmit. rewrite trim_truthy, negb_involutive.
  split; intros ->; reflexivity.
Qed.

(** X14: pressing the drill button twice in a row logs at most one drill:
    after any submission the form is either unchanged and blank, or reset to
    an empty weapon, so submitting the resulting form again changes
    nothing. *)
Theorem drill_submit_twice (env env' : Env) (f : WeaponDrills.Form) (m : Model) :
  let r := WeaponDrills.handleSubmit env onAddDrill f m in
  WeaponDrills.handleSubmit env' onAddDrill (fst r) (snd r) = r /\
  (length (drillEntries (snd r)) <= S (length (drillEntries m)))%nat.
Proof.
  cbv zeta.
  destruct (blank (WeaponDrills.weapon f)) eqn:Hb.
  - destruct (drill_submit_cases env f m) as [H1 _].
    rewrite (H1 Hb). cbn [fst snd].
    destruct (drill_submit_cases env' f m) as [H2 _].
    rewrite (H2 Hb). split; [reflexivity | lia].
  - destruct (drill_submit_cases env f m) as [_ H1].
    rewrite (H1 Hb). cbn [fst snd].
    destruct (drill_submit_cases env'
                (WeaponDrills.mkForm [] (num 5) (WeaponDrills.category f))
                (onAddDrill
                   (mkDrill (ES.toString (Date_now env)) (Date_toISOString env)
                            (WeaponDrills.weapon f) (WeaponDrills.intensity f)
                            (WeaponDrills.category f)) m)) as [H2 _].
    rewrite (H2 eq_refl). split; [reflexivity|].
    cbn [onAddDrill setDrillEntries drillEntries]. rewrite length_app. cbn. lia.
Qed.

Lemma or_truthy (a b : number) :
  Num.truthy b = true -> Num.truthy (Num.or a b) = true.
Proof. unfold Num.or. destruct (Num.truthy a) eqn:Ha; auto. Qed.

Lemma totalPnl_snoc (l : list TradeEntry) (t : TradeEntry) :
  totalPnl (l ++ [t]) = Num.add (totalPnl l) (pnl t).
Proof. unfold totalPnl. now rewrite fold_left_app. Qed.

(** X15: the trade form has no guard: every submission appends exactly one
    trade, so the trade count grows by one and the total P/L grows by the
    pnl of the new entry; whatever was typed, the stored prices are never
    NaN and the stored shares are never 0 and never NaN; when the shares
    field holds at most 15 characters they are a non-zero integer of
    magnitude below 2^53. *)
Theorem TradeLog_handleSubmit_always_appends
  (env : Env) (f : TradeLog.Form) (m : Model) :
  let m' := snd (TradeLog.handleSubmit env onAddTrade f m) in
  let e := TradeLog.newEntry env f in
  length (tradeEntries m') = S (length (tradeEntries m)) /\
  totalPnl (tradeEntries m') = Num.add (totalPnl (tradeEntries m)) (pnl e) /\
  entryPrice e <> NaN /\
  exitPrice e <> NaN /\
  Num.truthy (shares e) = true /\
  ((length (TradeLog.shares f) <= 15)%nat ->
   exists z, shares e = num z /\ z <> 0 /\ Z.abs z < 2 ^ 53) /\
  fst (TradeLog.handleSubmit env onAddTrade f m) = TradeLog.emptyForm.
Proof.
  cbv zeta.
  cbn [TradeLog.handleSubmit fst snd onAddTrade setTradeEntries tradeEntries].
  split; [rewrite length_app; cbn; lia|].
  split; [apply totalPnl_snoc|].
  unfold TradeLog.newEntry. cbn [entryPrice exitPrice shares].
  split; [apply or_not_NaN; discriminate|].
  split; [apply or_not_NaN; discriminate|].
  split; [apply or_truthy; reflexivity|].
  split; [|reflexivity].
  intros Hlen.
  destruct (parseInt_short (TradeLog.shares f) Hlen) as [-> | (z & -> & Hz)].
  - exists 1. split; [reflexivity|]. split; [lia | reflexivity].
  - unfold Num.or. destruct (Num.truthy (num z)) eqn:Htr.
    + exists z. split; [reflexivity|]. split; [|exact Hz].
      intros ->. discriminate Htr.
    + exists 1. split; [reflexivity|]. split; [lia | reflexivity].
Qed.

Lemma TradeLog_handleSubmit_always_appends_witness :
  exists z,
    shares (TradeLog.newEntry sampleEnv
              (TradeLog.mkForm (js "nvda") (js "101.5") (js "110") (js "25")
                               WIN [])) = num z /\
    z <> 0 /\ Z.abs z < 2 ^ 53.
Proof.
  pose proof (TradeLog_handleSubmit_always_appends sampleEnv
                (TradeLog.mkForm (js "nvda") (js "101.5") (js "110") (js "25")
                                 WIN [])
                loadedModel) as (_ & _ & _ & _ & _ & H & _).
  apply H. vm_compute. lia.
Defined.

(** X16: submitting the trade form as it is after a reset (every field
    empty, shares 1, result WIN) is accepted: it appends a trade with prices
    0, shares 1 and pnl 0 that counts as a win, so pressing the button twice
    adds a second, empty winning trade. *)
Theorem TradeLog_empty_form_logs_a_win
  (env env' : Env) (f : TradeLog.Form) (m : Model) :
  let r := TradeLog.handleSubmit env onAddTrade f m in
  let r' := TradeLog.handleSubmit env' onAddTrade (fst r) (snd r) in
  let e' := TradeLog.newEntry env' TradeLog.emptyForm in
  tradeEntries (snd r') = tradeEntries m ++ [TradeLog.newEntry env f; e'] /\
  result e' = WIN /\
  entryPrice e' = num 0 /\ exitPrice e' = num 0 /\
  shares e' = num 1 /\ pnl e' = num 0 /\
  Stats.wins (tradeEntries (snd r')) = S (Stats.wins (tradeEntries (snd r))).
Proof.
  cbv zeta.
  cbn [TradeLog.handleSubmit fst snd onAddTrade setTradeEntries tradeEntries].
  split; [now rewrite <- app_assoc|].
  repeat (split; [reflexivity|]).
  unfold Stats.wins. rewrite (List.filter_app _ (_ ++ _) [_]).
  rewrite length_app. cbn. lia.
Qed.

(** ** Streak after a new drill *)

Lemma trailingRun_snoc (l : list DrillEntry) (d : DrillEntry) :
  trailingRun (l ++ [d])
  = if Num.geb (intensity d) (num 5) then S (trailingRun l) else 0%nat.
Proof.
  unfold trailingRun. rewrite rev_app_distr. cbn [rev app takeWhile].
  change (qualifies d) with (Num.geb (intensity d) (num 5)).
  destruct (Num.geb (intensity d) (num 5)); reflexivity.
Qed.

(** X17: logging a drill with intensity 5 or more raises the streak by
    exactly one, logging one with a lower intensity resets it to 0, and a
    blank submission leaves it as it is. *)
Theorem streak_after_submit (env : Env) (f : WeaponDrills.Form) (m : Model)
  (d : DrillEntry) :
  streak (drillEntries (onAddDrill d m))
  = (if Num.geb (intensity d) (num 5) then S (streak (drillEntries m)) else 0%nat) /\
  streak (drillEntries (snd (WeaponDrills.handleSubmit env onAddDrill f m)))
  = (if blank (WeaponDrills.weapon f) then streak (drillEntries m)
     else if Num.geb (WeaponDrills.intensity f) (num 5)
          then S (streak (drillEntries m)) else 0%nat).
Proof.
  split.
  - cbn [onAddDrill setDrillEntries drillEntries].
    now rewrite !streak_trailingRun, trailingRun_snoc.
  - unfold WeaponDrills.handleSubmit. rewrite trim_truthy, negb_involutive.
    destruct (blank (WeaponDrills.weapon f)); [reflexivity|].
    cbn [snd onAddDrill setDrillEntries drillEntries].
    now rewrite !streak_trailingRun, trailingRun_snoc.
Qed.

(** ** Saving and loading *)

Lemma writable_Window (h : Host) :
  writable h -> exists items accepts,
    h = Window items accepts /\ forall key value, accepts key value = true.
Proof. destruct h as [| |items accepts]; cbn; [tauto | tauto | eauto]. Qed.

Lemma survives_truthy {T} `{JSON T} (v : T) :
  survives v -> string_truthy (stringify v) = true.
Proof.
  unfold survives. destruct (stringify v) eqn:Hs; [|reflexivity].
  rewrite parse_empty. discriminate.
Qed.

(** X18: on a host whose storage accepts the write, saving a value that
    survives serialization and loading the same key gives the value back,
    whatever the default, and logs no error; what is loaded under any other
    key is what was loaded before the save. *)
Theorem save_then_load {T} `{JSON T}
  (h : Host) (key : jsstring) (value defaultValue : T)
  (Hw : writable h) (Hs : survives value) :
  let r := saveToStorage h key value in
  snd r = [] /\
  loadFromStorage (fst r) key defaultValue = Normal value /\
  forall key' (other : T), key' <> key ->
    loadFromStorage (fst r) key' other = loadFromStorage h key' other.
Proof.
  destruct (writable_Window h Hw) as (items & accepts & -> & Ha).
  cbv zeta. unfold saveToStorage, setItem. cbn [window_defined negb].
  rewrite Ha. cbn [fst snd]. split; [reflexivity|]. split.
  - rewrite loadFromStorage_storedValue. unfold storedValue.
    rewrite lookup_insert_eq. unfold survives in Hs. now rewrite Hs.
  - intros key' other Hne. rewrite !loadFromStorage_storedValue.
    unfold storedValue. rewrite lookup_insert_ne by congruence. reflexivity.
Qed.

Lemma save_then_load_witness :
  loadFromStorage
    (fst (saveToStorage (Window ∅ (fun _ _ => true)) (js "flag") true))
    (js "flag") false
  = Normal true.
Proof.
  apply (save_then_load (Window ∅ (fun _ _ => true)) (js "flag") true false).
  - intros key value. reflexivity.
  - reflexivity.
Defined.

(** X19: saveToStorage either writes the item (and then changes no other
    item and logs nothing), or leaves the host exactly as it was; when the
    write is refused in a browser (quota, access) exactly one error goes to
    the console and nothing is thrown to the caller, and outside a browser
    nothing is logged. *)
Theorem saveToStorage_writes_or_leaves {T} `{JSON T}
  (h : Host) (key : jsstring) (value : T) :
  let r := saveToStorage h key value in
  (snd r = [] /\ holds (fst r) key value /\
   forall key', key' <> key -> stored (fst r) !! key' = stored h !! key') \/
  (fst r = h /\
   ((h = NoWindow /\ snd r = []) \/
    (h <> NoWindow /\ exists e, snd r = [e]))).
Proof.
  cbv zeta. unfold saveToStorage, setItem, holds.
  destruct h as [| |items accepts]; cbn [window_defined negb].
  - right. split; [reflexivity|]. left. split; reflexivity.
  - right. split; [reflexivity|]. right. split; [discriminate | eauto].
  - destruct (accepts key (stringify value)); cbn [fst snd stored].
    + left. split; [reflexivity|]. split; [apply lookup_insert_eq|].
      intros key' Hne. apply lookup_insert_ne. congruence.
    + right. split; [reflexivity|]. right. split; [discriminate | eauto].
Qed.

(** ** The component and its storage *)

Ltac distinct_keys :=
  let Hk := fresh "Hk" in intros Hk; vm_compute in Hk; discriminate.

Section Store.

Context `{JSON (list EgoEntry)} `{JSON (list TradeEntry)}
        `{JSON (list DrillEntry)} `{JSON Settings}.

Lemma save_same_model {T} `{JSON T} (key : jsstring) (value : T) (a : App) :
  model (save key value a) = model a.
Proof. apply save_model. Qed.

Lemma save_unready {T} `{JSON T} (key : jsstring) (value : T) (a : App) :
  loaded (model a) = false -> save key value a = a.
Proof. unfold save. now intros ->. Qed.

Lemma saveEffects_unready (a : App) :
  loaded (model a) = false -> saveEffects a = a.
Proof.
  intros Hl. unfold saveEffects, saveSettings, saveDrills, saveTrades, saveEgo.
  rewrite (save_unready STORAGE_KEYS.egoEntries _ a Hl).
  rewrite (save_unready STORAGE_KEYS.tradeEntries _ a Hl).
  rewrite (save_unready STORAGE_KEYS.drillEntries _ a Hl).
  now rewrite (save_unready STORAGE_KEYS.settings _ a Hl).
Qed.

Lemma saveEffects_model (a : App) :
  model (saveEffects a) = model a /\
  frame (saveEffects a) = frame a /\
  mounted (saveEffects a) = mounted a.
Proof.
  unfold saveEffects, saveSettings, saveDrills, saveTrades, saveEgo.
  repeat split;
    repeat match goal with
           | |- context [save ?k ?v ?x] =>
               destruct (save_model k v x) as (Hm & Hf & Hmo);
               first [rewrite Hm | rewrite Hf | rewrite Hmo]; clear Hm Hf Hmo
           end; reflexivity.
Qed.

Lemma loadAll_found (h : Host) :
  loadAll h
  = Normal (mkSnapshot (found h STORAGE_KEYS.egoEntries [])
                       (found h STORAGE_KEYS.tradeEntries [])
                       (found h STORAGE_KEYS.drillEntries [])
                       (found h STORAGE_KEYS.settings defaultSettings)).
Proof. unfold loadAll. now rewrite !loadFromStorage_storedValue. Qed.

Lemma startup_model (h : Host) :
  model (run [Mount; AnimationFrame] (start h))
  = mkModel dashboard
      (found h STORAGE_KEYS.egoEntries [])
      (found h STORAGE_KEYS.tradeEntries [])
      (found h STORAGE_KEYS.drillEntries [])
      (found h STORAGE_KEYS.settings defaultSettings)
      true.
Proof.
  cbn [run fold_left]. cbn [step start mounted].
  unfold mountEffect. cbn [host]. rewrite loadAll_found.
  rewrite saveEffects_unready by reflexivity.
  cbn [step frame].
  now rewrite (proj1 (saveEffects_model _)).
Qed.

(** *** Storage mirrors memory *)

Lemma save_writable {T} `{JSON T} (key : jsstring) (value : T) (a : App) :
  writable (host a) -> writable (host (save key value a)).
Proof.
  intros Hw. unfold save. destruct (loaded (model a)); [|exact Hw].
  destruct (writable_Window _ Hw) as (items & accepts & Hh & Ha).
  unfold saveToStorage, setItem. rewrite Hh. cbn [window_defined negb].
  rewrite Ha. cbn. exact Ha.
Qed.

Lemma save_holds {T} `{JSON T} (key : jsstring) (value : T) (a : App) :
  loaded (model a) = true -> writable (host a) ->
  holds (host (save key value a)) key value.
Proof.
  intros Hl Hw. unfold save, holds. rewrite Hl.
  destruct (writable_Window _ Hw) as (items & accepts & Hh & Ha).
  unfold saveToStorage, setItem. rewrite Hh. cbn [window_defined negb].
  rewrite Ha. cbn. apply lookup_insert_eq.
Qed.

Lemma save_keeps {T U} `{JSON T} `{JSON U}
  (key : jsstring) (value : T) (a : App) (key' : jsstring) (other : U) :
  key' <> key -> holds (host a) key' other ->
  holds (host (save key value a)) key' other.
Proof. unfold holds. intros Hne Hh. now rewrite save_other_key. Qed.

Lemma mirrors_saveEffects (a : App) :
  loaded (model a) = true -> writable (host a) -> mirrors (saveEffects a).
Proof.
  intros Hl Hw. unfold mirrors. rewrite (proj1 (saveEffects_model a)).
  unfold saveEffects, saveSettings, saveDrills, saveTrades, saveEgo.
  rewrite !save_same_model.
  repeat split.
  - do 3 (apply save_keeps; [distinct_keys|]). now apply save_holds.
  - do 2 (apply save_keeps; [distinct_keys|]).
    apply save_holds; [now rewrite save_same_model | now apply save_writable].
  - apply save_keeps; [distinct_keys|].
    apply save_holds; [now rewrite !save_same_model | now do 2 apply save_writable].
  - apply save_holds; [now rewrite !save_same_model | now do 3 apply save_writable].
Qed.

Lemma synced_saveEffects (a : App) :
  writable (host a) -> synced (saveEffects a).
Proof.
  intros Hw. split.
  - unfold saveEffects, saveSettings, saveDrills, saveTrades, saveEgo.
    now do 4 apply save_writable.
  - rewrite (proj1 (saveEffects_model a)). intros Hl.
    now apply mirrors_saveEffects.
Qed.

Lemma synced_step (i : Input) (a : App) : synced a -> synced (step i a).
Proof.
  intros [Hw Hm]. destruct i; cbn [step].
  - destruct (mounted a); [exact (conj Hw Hm)|].
    apply synced_saveEffects. unfold mountEffect.
    destruct (loadAll (host a)); exact Hw.
  - destruct (frame a) as [s|]; [|exact (conj Hw Hm)].
    apply synced_saveEffects. exact Hw.
  - destruct (mounted a); exact (conj Hw Hm).
  - destruct (loaded (model a)) eqn:Hl;
      [|split; [exact Hw | intros ?; congruence]].
    destruct (Hm eq_refl) as (_ & Ht & Hd & Hs).
    split; [now apply save_writable|]. intros _.
    unfold mirrors, saveEgo. rewrite !save_same_model. repeat split.
    + now apply save_holds.
    + apply save_keeps; [distinct_keys | exact Ht].
    + apply save_keeps; [distinct_keys | exact Hd].
    + apply save_keeps; [distinct_keys | exact Hs].
  - destruct (loaded (model a)) eqn:Hl;
      [|split; [exact Hw | intros ?; congruence]].
    destruct (Hm eq_refl) as (He & _ & Hd & Hs).
    split; [now apply save_writable|]. intros _.
    unfold mirrors, saveTrades. rewrite !save_same_model. repeat split.
    + apply save_keeps; [distinct_keys | exact He].
    + now apply save_holds.
    + apply save_keeps; [distinct_keys | exact Hd].
    + apply save_keeps; [distinct_keys | exact Hs].
  - destruct (loaded (model a)) eqn:Hl;
      [|split; [exact Hw | intros ?; congruence]].
    destruct (Hm eq_refl) as (He & Ht & _ & Hs).
    split; [now apply save_writable|]. intros _.
    unfold mirrors, saveDrills. rewrite !save_same_model. repeat split.
    + apply save_keeps; [distinct_keys | exact He].
    + apply save_keeps; [distinct_keys | exact Ht].
    + now apply save_holds.
    + apply save_keeps; [distinct_keys | exact Hs].
  - destruct (loaded (model a)) eqn:Hl;
      [|split; [exact Hw | intros ?; congruence]].
    destruct (Hm eq_refl) as (He & Ht & Hd & _).
    split; [now apply save_writable|]. intros _.
    unfold mirrors, saveSettings. rewrite !save_same_model. repeat split.
    + apply save_keeps; [distinct_keys | exact He].
    + apply save_keeps; [distinct_keys | exact Ht].
    + apply save_keeps; [distinct_keys | exact Hd].
    + now apply save_holds.
  - destruct (loaded (model a)) eqn:Hl;
      [|split; [exact Hw | intros ?; congruence]].
    destruct (Hm eq_refl) as (_ & _ & _ & Hs).
    split; [now do 3 apply save_writable|]. intros _.
    unfold mirrors, saveDrills, saveTrades, saveEgo.
    rewrite !save_same_model. repeat split.
    + do 2 (apply save_keeps; [distinct_keys|]). now apply save_holds.
    + apply save_keeps; [distinct_keys|].
      apply save_holds; [now rewrite save_same_model | now apply save_writable].
    + apply save_holds; [now rewrite !save_same_model | now do 2 apply save_writable].
    + do 3 (apply save_keeps; [distinct_keys|]). exact Hs.
Qed.

Lemma synced_run (inputs : list Input) (a : App) :
  synced a -> synced (run inputs a).
Proof.
  revert a. induction inputs as [|i inputs IH]; intros a Ha; [exact Ha|].
  cbn [run fold_left]. apply IH. now apply synced_step.
Qed.

Lemma found_holds {T} `{JSON T} (h : Host) (key : jsstring) (value other : T) :
  holds h key value -> survives value -> found h key other = value.
Proof.
  unfold holds, survives, found, storedValue. intros Hh Hs.
  destruct h as [| |items accepts]; cbn [stored] in Hh;
    try (rewrite lookup_empty in Hh; discriminate).
  now rewrite Hh, Hs.
Qed.

End Store.

(** *** Data enters memory once *)

Section Lifecycle.

Context `{JSON (list EgoEntry)} `{JSON (list TradeEntry)}
        `{JSON (list DrillEntry)} `{JSON Settings}.

Lemma Settled_start (h : Host) : Settled (start h).
Proof. split; cbn; [auto | discriminate | congruence]. Qed.

Lemma Settled_same (a a' : App) :
  model a' = model a -> frame a' = frame a -> mounted a' = mounted a ->
  Settled a -> Settled a'.
Proof. intros Hm Hf Hmo [Hu Hr Hfr]. split; rewrite ?Hm, ?Hf, ?Hmo; assumption. Qed.

Lemma Settled_saveEffects (a : App) : Settled a -> Settled (saveEffects a).
Proof.
  destruct (saveEffects_model a) as (Hm & Hf & Hmo).
  now apply Settled_same.
Qed.

Lemma Settled_save {T} `{JSON T} (key : jsstring) (value : T) (a : App) :
  Settled a -> Settled (save key value a).
Proof.
  destruct (save_model key value a) as (Hm & Hf & Hmo).
  now apply Settled_same.
Qed.

Lemma Settled_step (i : Input) (a : App) : Settled a -> Settled (step i a).
Proof.
  intros Ha. pose proof Ha as [Hu Hr Hfr]. destruct i; cbn [step].
  - destruct (mounted a) eqn:Hmo; [exact Ha|].
    apply Settled_saveEffects. unfold mountEffect.
    assert (Hl : loaded (model a) = false).
    { destruct (loaded (model a)) eqn:Hl; [|reflexivity].
      destruct (Hr eq_refl) as [_ Hm]. congruence. }
    destruct (loadAll (host a)); split; cbn; try (intros; congruence); auto.
  - destruct (frame a) as [s|] eqn:Hs; [|exact Ha].
    apply Settled_saveEffects.
    split; cbn; [discriminate | | congruence].
    intros _. split; [reflexivity|]. apply Hfr. congruence.
  - destruct (mounted a) eqn:Hmo; [|exact Ha].
    split; cbn; rewrite ?Hmo; assumption.
  - destruct (loaded (model a)) eqn:Hl; [|exact Ha].
    apply Settled_save. split; cbn; rewrite ?Hl; auto; discriminate.
  - destruct (loaded (model a)) eqn:Hl; [|exact Ha].
    apply Settled_save. split; cbn; rewrite ?Hl; auto; discriminate.
  - destruct (loaded (model a)) eqn:Hl; [|exact Ha].
    apply Settled_save. split; cbn; rewrite ?Hl; auto; discriminate.
  - destruct (loaded (model a)) eqn:Hl; [|exact Ha].
    apply Settled_save. split; cbn; rewrite ?Hl; auto; discriminate.
  - destruct (loaded (model a)) eqn:Hl; [|exact Ha].
    do 3 apply Settled_save. split; cbn; rewrite ?Hl; auto; discriminate.
Qed.

Lemma Settled_run (inputs : list Input) (a : App) :
  Settled a -> Settled (run inputs a).
Proof.
  revert a. induction inputs as [|i inputs IH]; intros a Ha; [exact Ha|].
  cbn [run fold_left]. apply IH. now apply Settled_step.
Qed.

Lemma step_grows (i : Input) (a : App) :
  Settled a -> i <> Reset ->
  egoEntries (model a) `prefix_of` egoEntries (model (step i a)) /\
  tradeEntries (model a) `prefix_of` tradeEntries (model (step i a)) /\
  drillEntries (model a) `prefix_of` drillEntries (model (step i a)).
Proof.
  intros [Hu Hr Hfr] Hi. destruct i; cbn [step]; try congruence.
  - destruct (mounted a); [auto|].
    rewrite (proj1 (saveEffects_model _)). unfold mountEffect.
    destruct (loadAll (host a)); cbn; auto.
  - destruct (frame a) as [s|] eqn:Hs; [|auto].
    rewrite (proj1 (saveEffects_model _)). cbn.
    destruct (loaded (model a)) eqn:Hl.
    + destruct (Hr eq_refl) as [Hf _]. congruence.
    + destruct (Hu eq_refl) as (-> & -> & -> & _).
      repeat split; apply prefix_nil.
  - destruct (mounted a); cbn; auto.
  - destruct (loaded (model a)); [|auto].
    unfold saveEgo. rewrite save_same_model. cbn.
    repeat split; auto. now apply prefix_app_r.
  - destruct (loaded (model a)); [|auto].
    unfold saveTrades. rewrite save_same_model. cbn.
    repeat split; auto. now apply prefix_app_r.
  - destruct (loaded (model a)); [|auto].
    unfold saveDrills. rewrite save_same_model. cbn.
    repeat split; auto. now apply prefix_app_r.
  - destruct (loaded (model a)); [|auto].
    unfold saveSettings. rewrite save_same_model. cbn. auto.
Qed.

End Lifecycle.

(** X20: whatever the host holds (no window, no access, missing or
    corrupted items), the first render followed by the animation frame
    makes the store ready; each collection is then the stored value of its
    own key when that item parses, and its default otherwise, independently
    of the other keys. *)
Theorem startup_ready_with_defaults
  `{JSON (list EgoEntry)} `{JSON (list TradeEntry)}
  `{JSON (list DrillEntry)} `{JSON Settings} (h : Host) :
  let a := run [Mount; AnimationFrame] (start h) in
  loaded (model a) = true /\
  egoEntries (model a) = found h STORAGE_KEYS.egoEntries [] /\
  tradeEntries (model a) = found h STORAGE_KEYS.tradeEntries [] /\
  drillEntries (model a) = found h STORAGE_KEYS.drillEntries [] /\
  settings (model a) = found h STORAGE_KEYS.settings defaultSettings.
Proof. cbv zeta. rewrite startup_model. repeat split. Qed.

(** X21: on a host whose storage accepts every write, in every state
    reached once the store is ready, each of the four stored items is the
    serialization of the corresponding collection in memory: no change made
    after startup is left unsaved, and an item that did not parse at startup
    has been overwritten. *)
Theorem storage_mirrors_memory
  `{JSON (list EgoEntry)} `{JSON (list TradeEntry)}
  `{JSON (list DrillEntry)} `{JSON Settings}
  (h0 : Host) (inputs : list Input)
  (Hw : writable h0)
  (Hl : loaded (model (run inputs (start h0))) = true) :
  mirrors (run inputs (start h0)).
Proof.
  assert (Hstart : synced (start h0)) by (split; [exact Hw | discriminate]).
  destruct (synced_run inputs (start h0) Hstart) as [_ Hm]. now apply Hm.
Qed.

Lemma storage_mirrors_memory_witness :
  stored (host (sampleRun [Mount; AnimationFrame; AddEgo sampleEgo; Reset;
                           AddEgo sampleEgo]))
    !! STORAGE_KEYS.egoEntries
  = Some (@stringify _ (pickle (list EgoEntry)) [sampleEgo]).
Proof.
  pose proof (@storage_mirrors_memory
                (pickle (list EgoEntry)) (pickle (list TradeEntry))
                (pickle (list DrillEntry)) (pickle Settings)
                (Window ∅ (fun _ _ => true))
                [Mount; AnimationFrame; AddEgo sampleEgo; Reset; AddEgo sampleEgo]
                (fun _ _ => eq_refl) eq_refl) as (He & _).
  exact He.
Defined.

Lemma pickle_survives {T} `{Countable T} (v : T) : @survives T (pickle T) v.
Proof. unfold survives. cbn. now rewrite decode_encode. Qed.

(** X22: closing and reopening the application loses nothing: on a host
    whose storage accepts every write, from any state reached once the
    store is ready and whose collections survive serialization, starting the
    application again on the storage left behind brings back the same ego
    entries, trades, drills and settings. *)
Theorem reload_restores_collections
  `{JSON (list EgoEntry)} `{JSON (list TradeEntry)}
  `{JSON (list DrillEntry)} `{JSON Settings}
  (h0 : Host) (inputs : list Input)
  (Hw : writable h0)
  (Hl : loaded (model (run inputs (start h0))) = true)
  (He : survives (egoEntries (model (run inputs (start h0)))))
  (Ht : survives (tradeEntries (model (run inputs (start h0)))))
  (Hd : survives (drillEntries (model (run inputs (start h0)))))
  (Hs : survives (settings (model (run inputs (start h0))))) :
  let a := run inputs (start h0) in
  let b := run [Mount; AnimationFrame] (start (host a)) in
  loaded (model b) = true /\
  egoEntries (model b) = egoEntries (model a) /\
  tradeEntries (model b) = tradeEntries (model a) /\
  drillEntries (model b) = drillEntries (model a) /\
  settings (model b) = settings (model a).
Proof.
  cbv zeta.
  assert (Hstart : synced (start h0)) by (split; [exact Hw | discriminate]).
  destruct (synced_run inputs (start h0) Hstart) as [_ Hm].
  destruct (Hm Hl) as (Me & Mt & Md & Ms).
  rewrite startup_model. cbn [loaded egoEntries tradeEntries drillEntries settings].
  split; [reflexivity|].
  split; [now apply found_holds|].
  split; [now apply found_holds|].
  split; now apply found_holds.
Qed.

Lemma reload_restores_collections_witness :
  let a := sampleRun [Mount; AnimationFrame; AddEgo sampleEgo;
                      UpdateSettings (mkSettings (num 5000) (num 10000)
                                                 (num 60) (num 5200))] in
  egoEntries (model (sampleReload a)) = [sampleEgo] /\
  settings (model (sampleReload a))
  = mkSettings (num 5000) (num 10000) (num 60) (num 5200).
Proof.
  pose proof (@reload_restores_collections
                (pickle (list EgoEntry)) (pickle (list TradeEntry))
                (pickle (list DrillEntry)) (pickle Settings)
                (Window ∅ (fun _ _ => true))
                [Mount; AnimationFrame; AddEgo sampleEgo;
                 UpdateSettings (mkSettings (num 5000) (num 10000)
                                            (num 60) (num 5200))]
                (fun _ _ => eq_refl) eq_refl
                (pickle_survives _) (pickle_survives _)
                (pickle_survives _) (pickle_survives _))
    as (_ & He & _ & _ & Hs).
  split; [exact He | exact Hs].
Defined.

(** X23: the stored data is loaded into memory once: in every state reached
    once the store is ready, a further mount or a further animation frame
    changes nothing, so what the user has added since is never overwritten
    by the values read at startup. *)
Theorem load_runs_once
  `{JSON (list EgoEntry)} `{JSON (list TradeEntry)}
  `{JSON (list DrillEntry)} `{JSON Settings}
  (h0 : Host) (inputs : list Input)
  (Hl : loaded (model (run inputs (start h0))) = true) :
  let a := run inputs (start h0) in
  step Mount a = a /\ step AnimationFrame a = a.
Proof.
  cbv zeta.
  destruct (Settled_run inputs (start h0) (Settled_start h0)) as [_ Hr _].
  destruct (Hr Hl) as [Hf Hm].
  cbn [step]. now rewrite Hf, Hm.
Qed.

Lemma load_runs_once_witness :
  let a := sampleRun [Mount; AnimationFrame; AddEgo sampleEgo] in
  sampleStep AnimationFrame a = a /\ egoEntries (model a) = [sampleEgo].
Proof.
  pose proof (@load_runs_once
                (pickle (list EgoEntry)) (pickle (list TradeEntry))
                (pickle (list DrillEntry)) (pickle Settings)
                (Window ∅ (fun _ _ => true))
                [Mount; AnimationFrame; AddEgo sampleEgo] eq_refl)
    as [_ Hf].
  split; [exact Hf | reflexivity].
Defined.

(** X24: entries are never dropped, reordered or altered except by a reset:
    along any sequence of inputs that contains no reset, each of the three
    collections before is a prefix of the collection after. *)
Theorem entries_only_grow
  `{JSON (list EgoEntry)} `{JSON (list TradeEntry)}
  `{JSON (list DrillEntry)} `{JSON Settings}
  (h0 : Host) (before after : list Input)
  (Hno : Forall (fun i => i <> Reset) after) :
  let a := run before (start h0) in
  let b := run (before ++ after) (start h0) in
  egoEntries (model a) `prefix_of` egoEntries (model b) /\
  tradeEntries (model a) `prefix_of` tradeEntries (model b) /\
  drillEntries (model a) `prefix_of` drillEntries (model b).
Proof.
  cbv zeta. unfold run. rewrite fold_left_app.
  fold (run before (start h0)).
  pose proof (Settled_run before (start h0) (Settled_start h0)) as Ha.
  generalize dependent (run before (start h0)). intros a.
  revert a. induction Hno as [|i after Hi _ IH]; intros a Ha.
  - cbn. repeat split; reflexivity.
  - cbn [fold_left].
    destruct (step_grows i a Ha Hi) as (P1 & P2 & P3).
    destruct (IH (step i a) (Settled_step i a Ha)) as (Q1 & Q2 & Q3).
    repeat split; etrans; eassumption.
Qed.

Lemma entries_only_grow_witness :
  egoEntries (model (sampleRun [Mount; AnimationFrame; AddEgo sampleEgo]))
  `prefix_of`
  egoEntries (model (sampleRun ([Mount; AnimationFrame; AddEgo sampleEgo]
                                ++ [Navigate ego; AddEgo sampleEgo;
                                    AnimationFrame]))).
Proof.
  pose proof (@entries_only_grow
                (pickle (list EgoEntry)) (pickle (list TradeEntry))
                (pickle (list DrillEntry)) (pickle Settings)
                (Window ∅ (fun _ _ => true))
                [Mount; AnimationFrame; AddEgo sampleEgo]
                [Navigate ego; AddEgo sampleEgo; AnimationFrame]) as Hg.
  apply Hg. repeat constructor; discriminate.
Defined.
